(** * Voice Guardian API server: a shallow embedding of [src/index.ts]

    The server is one Express application with three routes.  This file
    embeds the parts of it that carry behaviour:

    - the JavaScript values the handlers compute with (truthiness, [||],
      property lookup through [Object.prototype], template strings);
    - [path.extname] and [String.prototype.toLowerCase], used by
      [getAudioMimeType];
    - the multer intake ([upload.single('audio')] with the [fileFilter]);
    - the [/api/transcribe] handler, with the file system, the configured
      token and the upstream endpoint made explicit;
    - the [/api/models] handler and the error middleware.

    Strings are Rocq strings whose characters stand for the code units of
    the JavaScript string; only code units below 256 are represented. *)

From Stdlib Require Import ZArith Ascii String List Bool Lia.
From stdpp Require Import base option gmap strings list fin_maps pretty.

Local Open Scope string_scope.
Local Open Scope Z_scope.

(** ** JavaScript values *)

Module JS.

(** The values that flow through the handlers.  [JNativeFn] is a built-in
    function such as [Object.prototype.toString]; [JObjectPrototype] is the
    object [Object.prototype] itself (what [o.__proto__] evaluates to on an
    object literal). *)
#[warnings="-register-all"]
Inductive jsval : Type :=
  | JUndefined
  | JNull
  | JBool (b : bool)
  | JNum (n : Z)
  | JStr (s : string)
  | JArr (xs : list jsval)
  | JObj (props : list (string * jsval))
  | JNativeFn (name : string)
  | JObjectPrototype.

(** ToBoolean. *)
Definition truthy (v : jsval) : bool :=
  match v with
  | JUndefined | JNull => false
  | JBool b => b
  | JNum n => negb (n =? 0)%Z
  | JStr s => negb (s =? "")%string
  | JArr _ | JObj _ | JNativeFn _ | JObjectPrototype => true
  end.

(** [a || b] *)
Definition or_else (a b : jsval) : jsval := if truthy a then a else b.

(** A value that may be [undefined], read from an optional string. *)
Definition of_opt (o : option string) : jsval :=
  match o with Some s => JStr s | None => JUndefined end.

(** Own properties of an object literal, in insertion order.  A later
    binding of the same key overrides an earlier one. *)
Fixpoint own_lookup (props : list (string * jsval)) (k : string) : option jsval :=
  match props with
  | [] => None
  | (k', v) :: rest =>
      match own_lookup rest k with
      | Some v' => Some v'
      | None => if (k' =? k)%string then Some v else None
      end
  end.

(** The properties every ordinary object inherits from [Object.prototype]. *)
Definition object_prototype_functions : list string :=
  [ "constructor"; "hasOwnProperty"; "isPrototypeOf"; "propertyIsEnumerable";
    "toLocaleString"; "toString"; "valueOf";
    "__defineGetter__"; "__defineSetter__"; "__lookupGetter__"; "__lookupSetter__" ].

Definition object_prototype_get (k : string) : jsval :=
  if (k =? "__proto__")%string then JObjectPrototype
  else if (k =? "constructor")%string then JNativeFn "Object"
  else if existsb (String.eqb k) object_prototype_functions then JNativeFn k
  else JUndefined.

(** [o[k]] on an object literal with own properties [props]: own property
    first, then the prototype chain. *)
Definition get_prop (props : list (string * jsval)) (k : string) : jsval :=
  match own_lookup props k with
  | Some v => v
  | None => object_prototype_get k
  end.

(** [Object.keys(o)] for an object whose keys are not array indices:
    each key once, at the place of its first insertion. *)
Fixpoint keys_after (seen : list string) (props : list (string * jsval)) : list string :=
  match props with
  | [] => []
  | (k, _) :: rest =>
      if existsb (String.eqb k) seen then keys_after seen rest
      else k :: keys_after (k :: seen) rest
  end.

Definition own_keys (props : list (string * jsval)) : list string :=
  keys_after [] props.

(** [v?.error]-style access: property [k] of [v], [undefined] when [v] is
    nullish or a primitive without that property. *)
Definition opt_chain_get (v : jsval) (k : string) : jsval :=
  match v with
  | JObj props => get_prop props k
  | JObjectPrototype => object_prototype_get k
  | _ => JUndefined
  end.

(** ToString as a template literal applies it, for the values that can
    reach one here. *)
Fixpoint to_string (v : jsval) : string :=
  match v with
  | JUndefined => "undefined"
  | JNull => "null"
  | JBool true => "true"
  | JBool false => "false"
  | JNum n => pretty n
  | JStr s => s
  | JArr xs =>
      String.concat ","
        (map (fun x => match x with
                       | JUndefined | JNull => ""
                       | _ => to_string x
                       end) xs)
  | JObj _ | JObjectPrototype => "[object Object]"
  | JNativeFn name => "function " ++ name ++ "() { [native code] }"
  end.

End JS.
Import JS.

(** ** Strings: code units, [toLowerCase], [path.extname] *)

Module Str.

Definition code (c : ascii) : Z := Z.of_N (N_of_ascii c).
Definition of_code (n : Z) : ascii := ascii_of_N (Z.to_N n).

Definition CHAR_FORWARD_SLASH : Z := 47.
Definition CHAR_DOT : Z := 46.

(** [String.prototype.toLowerCase] on one code unit below 256: the letters
    A-Z, and the Latin-1 capitals U+00C0-U+00DE without the multiplication
    sign U+00D7, move down by 32; every other code unit is kept. *)
Definition lower_unit (c : ascii) : ascii :=
  let n := code c in
  if ((65 <=? n) && (n <=? 90)) then of_code (n + 32)
  else if ((192 <=? n) && (n <=? 222) && negb (n =? 215)) then of_code (n + 32)
  else c.

Fixpoint toLowerCase (s : string) : string :=
  match s with
  | EmptyString => EmptyString
  | String c rest => String (lower_unit c) (toLowerCase rest)
  end.

(** Case folding of a regular expression with the [i] flag and without the
    [u] flag: a code unit is compared through its upper-case form, and a
    code unit of 128 or more is never folded onto an ASCII one.  On ASCII
    letters this is the usual folding; other code units below 256 are only
    equal to themselves or to their own Latin-1 case partner, never to an
    ASCII character, which is all the patterns here contain. *)
Definition fold_unit (c : ascii) : ascii :=
  let n := code c in
  if ((97 <=? n) && (n <=? 122)) then of_code (n - 32) else c.

Fixpoint fold_case (s : string) : string :=
  match s with
  | EmptyString => EmptyString
  | String c rest => String (fold_unit c) (fold_case rest)
  end.

(** [s.startsWith(p)] *)
Definition startsWith (p s : string) : bool := String.prefix p s.

(** [s] ends with [suffix], compared under [fold_case]. *)
Definition ends_with_fold (suffix s : string) : bool :=
  let n := String.length s in
  let k := String.length suffix in
  (k <=? n)%nat &&
  (fold_case (String.substring (n - k) k s) =? fold_case suffix)%string.

(** *** [path.extname] (POSIX)

    Node scans the path from its last character to its first, with five
    mutable variables; the record below holds them. *)
Record ExtScan : Type := mkExtScan {
  startDot : Z;
  startPart : Z;
  end_ : Z;
  matchedSlash : bool;
  preDotState : Z
}.

Definition ext_init : ExtScan :=
  {| startDot := -1; startPart := 0; end_ := -1;
     matchedSlash := true; preDotState := 0 |}.

(** One iteration of the loop body at index [i] on code unit [c], for a
    code unit that is not a slash. *)
Definition ext_step (c : ascii) (i : Z) (st : ExtScan) : ExtScan :=
  let st1 :=
    if (end_ st =? -1)%Z
    then {| startDot := startDot st; startPart := startPart st;
            end_ := i + 1; matchedSlash := false;
            preDotState := preDotState st |}
    else st in
  if (code c =? CHAR_DOT)%Z then
    if (startDot st1 =? -1)%Z
    then {| startDot := i; startPart := startPart st1; end_ := end_ st1;
            matchedSlash := matchedSlash st1; preDotState := preDotState st1 |}
    else if negb (preDotState st1 =? 1)%Z
    then {| startDot := startDot st1; startPart := startPart st1;
            end_ := end_ st1; matchedSlash := matchedSlash st1;
            preDotState := 1 |}
    else st1
  else if negb (startDot st1 =? -1)%Z
  then {| startDot := startDot st1; startPart := startPart st1;
          end_ := end_ st1; matchedSlash := matchedSlash st1;
          preDotState := -1 |}
  else st1.

(** The loop [for (i = path.length - 1; i >= 0; --i)].  [rev_prefix] holds
    the code units at indices [i], [i-1], ..., [0] in that order. *)
Fixpoint ext_loop (rev_prefix : list ascii) (i : Z) (st : ExtScan) : ExtScan :=
  match rev_prefix with
  | [] => st
  | c :: rest =>
      if (code c =? CHAR_FORWARD_SLASH)%Z then
        if negb (matchedSlash st)
        then {| startDot := startDot st; startPart := i + 1; end_ := end_ st;
                matchedSlash := matchedSlash st;
                preDotState := preDotState st |}
        else ext_loop rest (i - 1) st
      else ext_loop rest (i - 1) (ext_step c i st)
  end.

(** [path.slice(a, b)] for [0 <= a <= b <= path.length]. *)
Definition slice (s : string) (a b : Z) : string :=
  String.substring (Z.to_nat a) (Z.to_nat (b - a)) s.

Definition extname (path : string) : string :=
  let cs := list_ascii_of_string path in
  let st := ext_loop (rev cs) (Z.of_nat (List.length cs) - 1) ext_init in
  if (startDot st =? -1)%Z
     || (end_ st =? -1)%Z
     || (preDotState st =? 0)%Z
     || ((preDotState st =? 1)%Z
         && (startDot st =? end_ st - 1)%Z
         && (startDot st =? startPart st + 1)%Z)
  then ""
  else slice path (startDot st) (end_ st).

(** *** Shapes of file names, used to state what [extname] returns *)

(** A code unit that is neither a dot nor a slash. *)
Definition plain_unit (c : ascii) : bool :=
  negb (code c =? CHAR_DOT)%Z && negb (code c =? CHAR_FORWARD_SLASH)%Z.

Definition plain (s : string) : bool :=
  forallb plain_unit (list_ascii_of_string s).

Definition no_dot (s : string) : bool :=
  forallb (fun c => negb (code c =? CHAR_DOT)%Z) (list_ascii_of_string s).

(** The assignment [end = i + 1; matchedSlash = false] made at the first
    code unit that is not a slash. *)
Definition mark_end (i : Z) (st : ExtScan) : ExtScan :=
  if (end_ st =? -1)%Z
  then {| startDot := startDot st; startPart := startPart st;
          end_ := i + 1; matchedSlash := false;
          preDotState := preDotState st |}
  else st.

End Str.
Import Str.

(** ** The server *)

Module Server.

(** *** Errors and responses *)

(** What the handlers ask of a thrown value: whether it is a
    [multer.MulterError], its [code], its [message], and the [response]
    (status and parsed body) that axios attaches when the upstream answered
    with an error status. *)
Inductive ErrorClass : Type := PlainError | MulterError | AxiosError | SystemError.

Record JsError : Type := mkJsError {
  eclass : ErrorClass;
  ecode : option string;
  message : string;
  response : option (Z * jsval)
}.

(** [res.status(s).json(body)] *)
Record Response : Type := mkResponse {
  status : Z;
  body : jsval
}.

(** A 4xx status. *)
Definition client_error (r : Response) : bool :=
  (400 <=? status r)%Z && (status r <? 500)%Z.

(** The two-field error body used by most branches. *)
Definition error_body (error details : string) : jsval :=
  JObj [("error", JStr error); ("details", JStr details)].

(** A field of a response body; [None] when the body has no such field. *)
Definition body_field (r : Response) (k : string) : option jsval :=
  match body r with
  | JObj props => own_lookup props k
  | _ => None
  end.

(** *** Uploaded files *)

(** The fields of [Express.Multer.File] the server reads. *)
Record MulterFile : Type := mkMulterFile {
  fieldname : string;
  originalname : string;
  mimetype : string;
  size : Z;
  path : string
}.

(** *** Configuration *)

Definition HF_MODELS : list (string * jsval) :=
  [ ("whisper-large", JStr "openai/whisper-large-v3");
    ("whisper-large-turbo", JStr "openai/whisper-large-v3-turbo") ].

Definition descriptions : list (string * jsval) :=
  [ ("whisper-large", JStr "Best accuracy, standard speed (1.5GB)");
    ("whisper-large-turbo",
     JStr "Best accuracy, faster and cheaper (newest, 1.5GB)") ].

Definition fileSizeLimit : Z := 100 * 1024 * 1024.

(** The limit busboy puts on the value of a text field when [limits] does
    not set [fieldSize]. *)
Definition fieldSizeLimit : Z := 1024 * 1024.

(** *** [getAudioMimeType] *)

Definition getAudioMimeType (file : MulterFile) : string :=
  if truthy (JStr (mimetype file))
     && negb (mimetype file =? "application/octet-stream")%string
  then mimetype file
  else
    let ext := toLowerCase (extname (originalname file)) in
    if (ext =? ".mp3")%string then "audio/mpeg"
    else if (ext =? ".wav")%string then "audio/wav"
    else if (ext =? ".ogg")%string then "audio/ogg"
    else if (ext =? ".m4a")%string then "audio/mp4"
    else if (ext =? ".flac")%string then "audio/flac"
    else "audio/wav".

(** The mapping of extensions to media types as the specification lists
    it (section 4.2), kept as a table to compare [getAudioMimeType] with. *)
Definition extension_types : gmap string string :=
  <[".mp3" := "audio/mpeg"]>
  (<[".wav" := "audio/wav"]>
  (<[".ogg" := "audio/ogg"]>
  (<[".m4a" := "audio/mp4"]>
  (<[".flac" := "audio/flac"]> ∅)))).

Definition type_of_extension (ext : string) : string :=
  default "audio/wav" (extension_types !! ext).

(** *** The multer [fileFilter] *)

Inductive FilterResult : Type :=
  | Accept
  | Reject (e : JsError).

(** [/\.(mp3|wav|ogg|m4a|aac)$/i] tested against a file name. *)
Definition audio_extensions : list string := ["mp3"; "wav"; "ogg"; "m4a"; "aac"].

Definition matches_audio_extension (name : string) : bool :=
  existsb (fun e => ends_with_fold ("." ++ e)%string name) audio_extensions.

Definition only_audio_error : JsError :=
  {| eclass := PlainError; ecode := None;
     message := "Only audio files are allowed"; response := None |}.

Definition fileFilter (file : MulterFile) : FilterResult :=
  if (truthy (JStr (mimetype file)) && startsWith "audio/" (mimetype file))
     || (fieldname file =? "audio")%string
     || (truthy (JStr (originalname file))
         && matches_audio_extension (originalname file))
  then Accept
  else Reject only_audio_error.

(** *** Model resolution *)

(** [(req.query.model as string) || 'whisper-large'] *)
Definition modelKey (query_model : option string) : jsval :=
  or_else (of_opt query_model) (JStr "whisper-large").

(** [HF_MODELS[modelKey] || HF_MODELS['whisper-large']] *)
Definition modelName (query_model : option string) : jsval :=
  or_else (get_prop HF_MODELS (to_string (modelKey query_model)))
          (get_prop HF_MODELS "whisper-large").

(** *** Model listing *)

Definition getModelDescription (key : string) : jsval :=
  or_else (get_prop descriptions key) (JStr "Unknown model").

Record ModelInfo : Type := mkModelInfo {
  key : string;
  name : jsval;
  description : jsval
}.

(** The [models] array of [GET /api/models]. *)
Definition listModels : list ModelInfo :=
  map (fun k => {| key := k;
                   name := get_prop HF_MODELS k;
                   description := getModelDescription k |})
      (own_keys HF_MODELS).

(** *** The world outside the process *)

(** One call of [axios.post(url, data, config)]. *)
Record OutboundCall : Type := mkOutboundCall {
  url : string;
  data : string;
  authorization : string;
  content_type : string;
  accept : string;
  maxBodyLength : Z;
  timeout : Z
}.

(** How a call of [axios.post] ends: the promise resolves with the parsed
    response body, or rejects with an error. *)
Inductive AxiosOutcome : Type :=
  | Resolved (response_data : jsval)
  | Rejected (e : JsError).

(** The error axios rejects with when no response arrived within
    [timeout] milliseconds. *)
Definition timeout_error (ms : Z) : JsError :=
  {| eclass := AxiosError; ecode := Some "ECONNABORTED";
     message := "timeout of " ++ pretty ms ++ "ms exceeded";
     response := None |}.

(** The error axios rejects with when the upstream answered with a status
    outside 2xx. *)
Definition upstream_error (st : Z) (d : jsval) : JsError :=
  {| eclass := AxiosError;
     ecode := if ((400 <=? st) && (st <? 500))%Z then Some "ERR_BAD_REQUEST"
              else if ((500 <=? st) && (st <? 600))%Z then Some "ERR_BAD_RESPONSE"
              else None;
     message := "Request failed with status code " ++ pretty st;
     response := Some (st, d) |}.

(** What is fixed when the process starts, and what the environment
    decides: the token from [process.env], the upstream's answer to a call,
    the random name multer gives a stored upload, and the clock. *)
Record Env : Type := mkEnv {
  HF_API_TOKEN : option string;
  upstream : OutboundCall -> AxiosOutcome;
  tmpname : string;
  now : string
}.

(** The state a request can change: the files under the upload directory,
    the paths whose removal the operating system refuses, and the calls
    made to the upstream so far. *)
Record World : Type := mkWorld {
  fs : gmap string string;
  pinned : gset string;
  outbound : list OutboundCall
}.

Definition set_fs (w : World) (m : gmap string string) : World :=
  {| fs := m; pinned := pinned w; outbound := outbound w |}.

Definition log_call (w : World) (c : OutboundCall) : World :=
  {| fs := fs w; pinned := pinned w; outbound := outbound w ++ [c] |}.

(** *** Computations that may throw *)

Definition M (A : Type) : Type := World -> World * (A + JsError).

Definition ret {A} (a : A) : M A := fun w => (w, inl a).
Definition throw {A} (e : JsError) : M A := fun w => (w, inr e).

Definition bind {A B} (m : M A) (k : A -> M B) : M B :=
  fun w =>
    match m w with
    | (w', inl a) => k a w'
    | (w', inr e) => (w', inr e)
    end.

(** [try { m } catch (e) { h e }] *)
Definition try_catch {A} (m : M A) (h : JsError -> M A) : M A :=
  fun w =>
    match m w with
    | (w', inl a) => (w', inl a)
    | (w', inr e) => h e w'
    end.

Notation "'do' x <- m ; k" := (bind m (fun x => k))
  (at level 10, x name, m at level 100, k at level 200).

(** *** [fs] and [axios] *)

Definition enoent (call p : string) : JsError :=
  {| eclass := SystemError; ecode := Some "ENOENT";
     message := "ENOENT: no such file or directory, " ++ call ++ " '" ++ p ++ "'";
     response := None |}.

Definition eperm (call p : string) : JsError :=
  {| eclass := SystemError; ecode := Some "EPERM";
     message := "EPERM: operation not permitted, " ++ call ++ " '" ++ p ++ "'";
     response := None |}.

Definition readFileSync (p : string) : M string :=
  fun w =>
    match fs w !! p with
    | Some content => (w, inl content)
    | None => (w, inr (enoent "open" p))
    end.

Definition unlinkSync (p : string) : M unit :=
  fun w =>
    match fs w !! p with
    | None => (w, inr (enoent "unlink" p))
    | Some _ =>
        if decide (p ∈ pinned w) then (w, inr (eperm "unlink" p))
        else (set_fs w (delete p (fs w)), inl tt)
    end.

Definition axios_post (env : Env) (c : OutboundCall) : M jsval :=
  fun w =>
    match upstream env c with
    | Resolved d => (log_call w c, inl d)
    | Rejected e => (log_call w c, inr e)
    end.

(** *** [POST /api/transcribe]: the handler *)

Record Request : Type := mkRequest {
  file : option MulterFile;
  query_model : option string
}.

(** The request the handler sends upstream. *)
Definition outbound_call (env : Env) (f : MulterFile) (q : option string)
    (audioBuffer : string) : OutboundCall :=
  {| url := "https://api-inference.huggingface.co/models/"
            ++ to_string (modelName q);
     data := audioBuffer;
     authorization := "Bearer " ++ to_string (of_opt (HF_API_TOKEN env));
     content_type := getAudioMimeType f;
     accept := "application/json";
     maxBodyLength := 100 * 1024 * 1024;
     timeout := 60000 |}.

Definition success_response (env : Env) (f : MulterFile) (q : option string)
    (response_data : jsval) : Response :=
  {| status := 200;
     body := JObj
       [ ("success", JBool true);
         ("transcription", response_data);
         ("metadata", JObj
            [ ("model", modelName q);
              ("originalFilename", JStr (originalname f));
              ("fileSize", JNum (size f));
              ("mimetype", JStr (mimetype f));
              ("processedAt", JStr (now env)) ]) ] |}.

(** The body of the [try] block. *)
Definition try_block (env : Env) (f : MulterFile) (q : option string) : M Response :=
  let tempFilePath := path f in
  do audioBuffer <- readFileSync tempFilePath;
  do response_data <- axios_post env (outbound_call env f q audioBuffer);
  do _unlinked <- unlinkSync tempFilePath;
  ret (success_response env f q response_data).

(** The branches of the [catch] block after its clean-up. *)
Definition error_response (error : JsError) : Response :=
  match response error with
  | Some (st, d) =>
      if (st =? 401)%Z then
        {| status := 500;
           body := error_body "Authentication failed"
                              "Invalid HuggingFace API token" |}
      else if (st =? 429)%Z then
        {| status := 429;
           body := error_body "Rate limit exceeded"
             "Too many requests to HuggingFace API. Please try again later." |}
      else if (st =? 503)%Z then
        {| status := 503;
           body := JObj
             [ ("error", JStr "Model loading");
               ("details", JStr
                  "The AI model is currently loading. Please try again in a few moments.");
               ("retryAfter", JNum 20) ] |}
      else
        {| status := 500;
           body := JObj
             [ ("error", JStr "Transcription failed");
               ("details", or_else (opt_chain_get d "error")
                                   (JStr "HuggingFace API error"));
               ("status", JNum st) ] |}
  | None =>
      if match ecode error with
         | Some c => (c =? "ECONNABORTED")%string
         | None => false
         end
      then
        {| status := 408;
           body := error_body "Request timeout"
             "Transcription took too long. Please try with a shorter audio file." |}
      else
        {| status := 500;
           body := error_body "Internal server error" (message error) |}
  end.

(** The [catch] block: remove the temporary file, swallowing a failure of
    the removal, then answer by the kind of error. *)
Definition catch_block (f : MulterFile) (error : JsError) (w : World) : World * Response :=
  let tempFilePath := path f in
  let '(w', _) :=
    try_catch (unlinkSync tempFilePath) (fun _cleanupError => ret tt) w in
  (w', error_response error).

(** [HF_API_TOKEN] is set to a non-empty string. *)
Definition configured (env : Env) : bool := truthy (of_opt (HF_API_TOKEN env)).

Definition transcribe (env : Env) (req : Request) (w : World) : World * Response :=
  match file req with
  | None =>
      (w, {| status := 400;
             body := error_body "No audio file uploaded"
                                "Please provide an audio file in the request" |})
  | Some f =>
      if negb (configured env) then
        (w, {| status := 500;
               body := error_body "Server configuration error"
                                  "HuggingFace API token not configured" |})
      else
        match try_block env f (query_model req) w with
        | (w', inl r) => (w', r)
        | (w', inr error) => catch_block f error w'
        end
  end.

(** *** The error-handling middleware *)

Definition errorMiddleware (error : JsError) : Response :=
  match eclass error, ecode error with
  | MulterError, Some c =>
      if (c =? "LIMIT_FILE_SIZE")%string then
        {| status := 413;
           body := error_body "File too large"
                              "Audio file must be smaller than 100MB" |}
      else
        {| status := 500;
           body := error_body "Internal server error" (message error) |}
  | _, _ =>
      {| status := 500;
         body := error_body "Internal server error" (message error) |}
  end.

(** *** Intake: [multer({ dest, limits, fileFilter }).single(name)] *)

(** A part of a multipart body, as busboy reports it. *)
Inductive Part : Type :=
  | TextField (field value : string)
  | FilePart (field filename mime content : string).

Definition multer_error (c msg : string) : JsError :=
  {| eclass := MulterError; ecode := Some c; message := msg; response := None |}.

(** The middleware's own state while it reads the body: how many files each
    field may still carry, and the file stored so far. *)
Record Intake : Type := mkIntake {
  filesLeft : gmap string nat;
  stored : option MulterFile
}.

(** Disk storage with [dest: '/tmp/']. *)
Definition dest : string := "/tmp/".

Definition store (env : Env) (f : MulterFile) (content : string) : M MulterFile :=
  fun w =>
    let p := dest ++ tmpname env in
    (set_fs w (<[p := content]> (fs w)),
     inl {| fieldname := fieldname f; originalname := originalname f;
            mimetype := mimetype f;
            size := Z.of_nat (String.length content); path := p |}).

(** multer removes what it has stored when the upload is aborted; a failure
    of that removal is not reported. *)
Definition remove_uploaded (st : Intake) : M unit :=
  match stored st with
  | None => ret tt
  | Some f => try_catch (unlinkSync (path f)) (fun _ => ret tt)
  end.

(** The first [n] code units of [s]. *)
Fixpoint take_units (s : string) (n : Z) : string :=
  match s with
  | EmptyString => EmptyString
  | String c rest =>
      if (n <=? 0)%Z then EmptyString else String c (take_units rest (n - 1))
  end.

(** One [file] event.  A part without a file name is skipped; a field with
    no file left to take is an unexpected file; then the filter of the
    application decides; then the file is written.  busboy hands over at
    most [fileSize] bytes and reports the limit as soon as that many have
    been read, so a file of [fileSize] bytes or more is written truncated,
    removed again with what else was stored, and the upload is aborted. *)
Definition on_file (env : Env) (filter : MulterFile -> FilterResult)
    (field filename mime content : string) (st : Intake) : M Intake :=
  if negb (truthy (JStr filename)) then ret st
  else
    let f := {| fieldname := field; originalname := filename;
                mimetype := mime; size := 0; path := "" |} in
    let left := default 0%nat (filesLeft st !! field) in
    if (left <=? 0)%nat then
      throw (multer_error "LIMIT_UNEXPECTED_FILE" "Unexpected field")
    else
      match filter f with
      | Reject e => throw e
      | Accept =>
          if (fileSizeLimit <=? Z.of_nat (String.length content))%Z then
            do f' <- store env f (take_units content fileSizeLimit);
            do _removed <- try_catch (unlinkSync (path f')) (fun _ => ret tt);
            throw (multer_error "LIMIT_FILE_SIZE" "File too large")
          else
            do f' <- store env f content;
            ret {| filesLeft := <[field := (left - 1)%nat]> (filesLeft st);
                   stored := Some f' |}
      end.

(** One [field] event.  busboy cuts the value of a text field at
    [fieldSize] bytes and marks it truncated as soon as that many have been
    read; multer aborts on a truncated value.  The name of a field of a
    multipart body is never reported truncated, and multer's own test of
    the name applies only when [limits] sets [fieldNameSize], which it does
    not here. *)
Definition on_field (field value : string) (st : Intake) : M Intake :=
  if (fieldSizeLimit <=? Z.of_nat (String.length value))%Z then
    throw (multer_error "LIMIT_FIELD_VALUE" "Field value too long")
  else ret st.

Fixpoint read_parts (env : Env) (filter : MulterFile -> FilterResult)
    (parts : list Part) (st : Intake) : M Intake :=
  match parts with
  | [] => ret st
  | TextField field value :: rest =>
      do st' <- try_catch (on_field field value st)
                          (fun e => do _removed <- remove_uploaded st; throw e);
      read_parts env filter rest st'
  | FilePart field filename mime content :: rest =>
      do st' <- try_catch (on_file env filter field filename mime content st)
                          (fun e => do _removed <- remove_uploaded st; throw e);
      read_parts env filter rest st'
  end.

(** [upload.single(name)]: at most one file, under [name]; the result is
    [req.file]. *)
Definition multer_single (env : Env) (filter : MulterFile -> FilterResult)
    (name : string) (parts : list Part) : M (option MulterFile) :=
  do st <- read_parts env filter parts
             {| filesLeft := {[ name := 1%nat ]}; stored := None |};
  ret (stored st).

(** What holds of the middleware's state under [single(name)]: only the
    field [name] may still take a file, and a stored file came under it. *)
Definition intake_inv (name : string) (st : Intake) : Prop :=
  (forall fld, (0 < default 0%nat (filesLeft st !! fld))%nat -> fld = name)
  /\ (forall f, stored st = Some f -> fieldname f = name).

Definition accept_all (f : MulterFile) : FilterResult := Accept.


(** A part that gives multer a file: a file part with a file name. *)
Definition carries_file (p : Part) : bool :=
  match p with
  | TextField _ _ => false
  | FilePart _ filename _ _ => truthy (JStr filename)
  end.

(** *** [POST /api/transcribe]: the route *)

Record HttpRequest : Type := mkHttpRequest {
  parts : list Part;
  model : option string
}.

Definition post_transcribe (env : Env) (r : HttpRequest) (w : World) : World * Response :=
  match multer_single env fileFilter "audio" (parts r) w with
  | (w', inr err) => (w', errorMiddleware err)
  | (w', inl f) => transcribe env {| file := f; query_model := model r |} w'
  end.

End Server.
Import Server.

(** ** Sample requests

    Concrete environments, worlds and requests on which the handlers are
    evaluated. *)

Module Sample.

Definition memo : MulterFile :=
  {| fieldname := "audio"; originalname := "memo.wav"; mimetype := "audio/wav";
     size := 4; path := "/tmp/9f2c41" |}.

(** The world after intake has stored the upload. *)
Definition uploaded : World :=
  {| fs := {[ "/tmp/9f2c41" := "RIFF" ]}; pinned := ∅; outbound := [] |}.

(** As [uploaded], in a directory that refuses the removal of the file. *)
Definition uploaded_pinned : World :=
  {| fs := {[ "/tmp/9f2c41" := "RIFF" ]}; pinned := {[ "/tmp/9f2c41" ]};
     outbound := [] |}.

Definition empty_world : World :=
  {| fs := ∅; pinned := ∅; outbound := [] |}.

Definition env_of (token : option string) (answer : AxiosOutcome) : Env :=
  {| HF_API_TOKEN := token; upstream := fun _ => answer;
     tmpname := "9f2c41"; now := "2025-06-01T12:00:00.000Z" |}.

Definition transcript : jsval := JObj [("text", JStr "hello world")].

Definition model_loading : AxiosOutcome :=
  Rejected (upstream_error 503
    (JObj [ ("error", JStr "Model openai/whisper-large-v3 is currently loading");
            ("estimated_time", JNum 20) ])).

Definition memo_request : Request :=
  {| file := Some memo; query_model := None |}.

Definition memo_upload : HttpRequest :=
  {| parts := [FilePart "audio" "memo.wav" "audio/wav" "RIFF"]; model := None |}.

Definition notes : MulterFile :=
  {| fieldname := "document"; originalname := "notes.txt";
     mimetype := "text/plain"; size := 0; path := "" |}.

Definition notes_upload : HttpRequest :=
  {| parts := [FilePart "document" "notes.txt" "text/plain" "to do"];
     model := None |}.

End Sample.

(** ** Start-up configuration *)

Module Startup.

(** [s.split(',')]: the pieces of [s] between the commas, the empty pieces
    among them; a string without comma is its only piece. *)
Fixpoint split_comma (s : string) : list string :=
  match s with
  | EmptyString => [""]
  | String c rest =>
      let pieces := split_comma rest in
      if (code c =? 44)%Z then "" :: pieces
      else match pieces with
           | piece :: others => String c piece :: others
           | [] => [String c ""]
           end
  end.

Definition default_origins : list string :=
  [ "http://localhost:5173";
    "http://localhost:3000";
    "https://wondrous-madeleine-dbdb38.netlify.app" ].

(** [process.env.ALLOWED_ORIGINS?.split(',') || [...]]: an array is truthy
    whatever it holds, so the list of the source is taken only when the
    variable is not set. *)
Definition allowedOrigins (ALLOWED_ORIGINS : option string) : list string :=
  match ALLOWED_ORIGINS with
  | Some s => split_comma s
  | None => default_origins
  end.

End Startup.
Import Startup.

(** The parts of a body that give multer a file, in their order. *)
Definition uploads (ps : list Part) : list Part :=
  List.filter carries_file ps.

(** The state [upload.single('audio')] starts from. *)
Definition intake_start : Intake :=
  {| filesLeft := {[ "audio" := 1%nat ]}; stored := None |}.

(** The state after the one file under ['audio'] has been stored. *)
Definition intake_full (f : MulterFile) : Intake :=
  {| filesLeft := <["audio" := 0%nat]> {[ "audio" := 1%nat ]};
     stored := Some f |}.

(** The path multer stores an upload at. *)
Definition temp_path (env : Env) : string := (dest ++ tmpname env)%string.

(** The answers of the handler that do not depend on the request. *)
Definition no_file_response : Response :=
  {| status := 400;
     body := error_body "No audio file uploaded"
                        "Please provide an audio file in the request" |}.

Definition configuration_error_response : Response :=
  {| status := 500;
     body := error_body "Server configuration error"
                        "HuggingFace API token not configured" |}.



(** [req.file] for an upload of [content] under the bound field. *)
Definition stored_file (env : Env) (filename mime content : string) : MulterFile :=
  {| fieldname := "audio"; originalname := filename; mimetype := mime;
     size := Z.of_nat (String.length content); path := temp_path env |}.

(** ** More sample requests *)

Module Case.

(** A server with a token whose upstream answers with a transcript. *)
Definition ready : Env :=
  Sample.env_of (Some "hf_token") (Resolved Sample.transcript).

Definition unconfigured : Env :=
  Sample.env_of None (Resolved Sample.transcript).

Definition two_files : HttpRequest :=
  {| parts := [ FilePart "audio" "first.wav" "audio/wav" "RIFF";
                TextField "language" "en";
                FilePart "audio" "second.wav" "audio/wav" "RIFF" ];
     model := None |}.







End Case.

(** * Properties *)

(** ** Strings and [path.extname] *)

Section Extname.

Lemma ext_step_no_dot_yet c i st :
  (code c =? CHAR_DOT)%Z = false -> startDot st = -1 ->
  ext_step c i st = mark_end i st.
Proof.
  intros Hc Hd. unfold ext_step, mark_end. rewrite Hc.
  destruct (end_ st =? -1)%Z; simpl; rewrite Hd; reflexivity.
Qed.

Lemma mark_end_startDot i st : startDot (mark_end i st) = startDot st.
Proof. unfold mark_end. destruct (end_ st =? -1)%Z; reflexivity. Qed.

Lemma mark_end_marked i st : 0 <= i -> end_ (mark_end i st) <> -1.
Proof.
  intros Hi. unfold mark_end.
  destruct (end_ st =? -1)%Z eqn:E; simpl; [lia | apply Z.eqb_neq; exact E].
Qed.

Lemma mark_end_idem i j st : 0 <= i -> mark_end j (mark_end i st) = mark_end i st.
Proof.
  intros Hi. unfold mark_end at 1.
  destruct (end_ (mark_end i st) =? -1)%Z eqn:E; [| reflexivity].
  apply Z.eqb_eq in E. exfalso. exact (mark_end_marked i st Hi E).
Qed.

Lemma ext_loop_cons c rest i st :
  ext_loop (c :: rest) i st =
  if (code c =? CHAR_FORWARD_SLASH)%Z then
    if negb (matchedSlash st)
    then {| startDot := startDot st; startPart := i + 1; end_ := end_ st;
            matchedSlash := matchedSlash st; preDotState := preDotState st |}
    else ext_loop rest (i - 1) st
  else ext_loop rest (i - 1) (ext_step c i st).
Proof. reflexivity. Qed.

(** Without a dot in the scanned part, [startDot] is never set. *)
Lemma ext_loop_no_dot l : forall i st,
  forallb (fun c => negb (code c =? CHAR_DOT)%Z) l = true ->
  startDot st = -1 ->
  startDot (ext_loop l i st) = -1.
Proof.
  induction l as [| c l IH]; intros i st Hl Hd; simpl; [exact Hd |].
  simpl in Hl. apply andb_prop in Hl as [Hc Hl].
  apply negb_true_iff in Hc.
  destruct (code c =? CHAR_FORWARD_SLASH)%Z.
  - destruct (negb (matchedSlash st)); simpl; [exact Hd | apply IH; assumption].
  - apply IH; [assumption |].
    rewrite ext_step_no_dot_yet by assumption. rewrite mark_end_startDot. exact Hd.
Qed.

(** Scanning a run of plain code units from a state that has met no dot:
    only the end mark is set, at the first of them. *)
Lemma ext_loop_plain_run x : forall l i st,
  forallb plain_unit x = true ->
  startDot st = -1 ->
  Z.of_nat (List.length x) <= i + 1 ->
  ext_loop (x ++ l) i st =
  ext_loop l (i - Z.of_nat (List.length x))
           (match x with [] => st | _ :: _ => mark_end i st end).
Proof.
  induction x as [| c x IH]; intros l i st Hx Hd Hi.
  - simpl. f_equal. lia.
  - simpl in Hx. apply andb_prop in Hx as [Hc Hx].
    unfold plain_unit in Hc. apply andb_prop in Hc as [Hdot Hslash].
    apply negb_true_iff in Hdot. apply negb_true_iff in Hslash.
    cbn [app ext_loop]. rewrite Hslash.
    rewrite ext_step_no_dot_yet by assumption.
    cbn [List.length] in Hi. rewrite Nat2Z.inj_succ in Hi.
    rewrite IH; [| assumption | rewrite mark_end_startDot; exact Hd | lia].
    f_equal.
    + cbn [List.length]. lia.
    + destruct x; [reflexivity | apply mark_end_idem; lia].
Qed.

(** Once the end is marked and a dot is recorded with something seen before
    it, the rest of the scan leaves [startDot] and [end] alone and keeps
    [preDotState] away from 0. *)
Lemma ext_loop_settled l : forall i st,
  end_ st <> -1 -> startDot st <> -1 -> matchedSlash st = false ->
  preDotState st <> 0 ->
  let st' := ext_loop l i st in
  startDot st' = startDot st /\ end_ st' = end_ st /\ preDotState st' <> 0.
Proof.
  induction l as [| c l IH]; intros i st He Hd Hm Hp; simpl; [auto |].
  destruct (code c =? CHAR_FORWARD_SLASH)%Z.
  - rewrite Hm. simpl. auto.
  - assert (Hstep : end_ (ext_step c i st) = end_ st
                    /\ startDot (ext_step c i st) = startDot st
                    /\ matchedSlash (ext_step c i st) = false
                    /\ preDotState (ext_step c i st) <> 0).
    { unfold ext_step.
      apply Z.eqb_neq in He. rewrite He.
      apply Z.eqb_neq in Hd. rewrite Hd. simpl.
      destruct (code c =? CHAR_DOT)%Z; [| simpl; repeat split; auto; lia].
      destruct (preDotState st =? 1)%Z; simpl; repeat split; auto; lia. }
    destruct Hstep as (E1 & E2 & E3 & E4).
    specialize (IH (i - 1) (ext_step c i st)).
    rewrite E1, E2 in IH. apply IH; assumption.
Qed.

(** The first code unit before the recorded dot, when it is not a slash,
    moves [preDotState] away from 0. *)
Lemma ext_loop_before_dot c l i st :
  (code c =? CHAR_FORWARD_SLASH)%Z = false ->
  end_ st <> -1 -> startDot st <> -1 -> matchedSlash st = false ->
  let st' := ext_loop (c :: l) i st in
  startDot st' = startDot st /\ end_ st' = end_ st /\ preDotState st' <> 0.
Proof.
  intros Hc He Hd Hm. cbn [ext_loop]. rewrite Hc.
  assert (Hstep : end_ (ext_step c i st) = end_ st
                  /\ startDot (ext_step c i st) = startDot st
                  /\ matchedSlash (ext_step c i st) = false
                  /\ preDotState (ext_step c i st) <> 0).
  { unfold ext_step.
    pose proof He as He'. apply Z.eqb_neq in He'. rewrite He'.
    pose proof Hd as Hd'. apply Z.eqb_neq in Hd'. rewrite Hd'. simpl.
    destruct (code c =? CHAR_DOT)%Z; [| simpl; repeat split; auto; lia].
    destruct (preDotState st =? 1)%Z eqn:E; simpl; repeat split; auto; lia. }
  destruct Hstep as (E1 & E2 & E3 & E4).
  pose proof (ext_loop_settled l (i - 1) (ext_step c i st)) as H.
  rewrite E1, E2 in H. apply H; assumption.
Qed.

Lemma list_ascii_of_string_app (a b : string) :
  list_ascii_of_string (a ++ b)
  = (list_ascii_of_string a ++ list_ascii_of_string b)%list.
Proof. induction a as [| c a IH]; simpl; [reflexivity | rewrite IH; reflexivity]. Qed.

Lemma string_app_cons (d : ascii) (a b : string) :
  (String d a ++ b = String d (a ++ b))%string.
Proof. reflexivity. Qed.

Lemma string_app_assoc (a b c : string) :
  ((a ++ b) ++ c = a ++ (b ++ c))%string.
Proof.
  induction a as [| d a IH]; [reflexivity |].
  rewrite !string_app_cons, IH. reflexivity.
Qed.

Lemma string_app_length (a b : string) :
  String.length (a ++ b) = (String.length a + String.length b)%nat.
Proof.
  induction a as [| d a IH]; [reflexivity |].
  rewrite string_app_cons. cbn [String.length]. rewrite IH. reflexivity.
Qed.

Lemma list_ascii_of_string_length (s : string) :
  List.length (list_ascii_of_string s) = String.length s.
Proof. induction s as [| c s IH]; simpl; [reflexivity | rewrite IH; reflexivity]. Qed.

Lemma substring_all (s : string) : String.substring 0 (String.length s) s = s.
Proof. induction s as [| c s IH]; simpl; [reflexivity | rewrite IH; reflexivity]. Qed.

Lemma substring_skip (a b : string) (n : nat) :
  String.substring (String.length a) n (a ++ b) = String.substring 0 n b.
Proof. induction a as [| c a IH]; simpl; [reflexivity | exact IH]. Qed.

Lemma slice_suffix (a b : string) :
  slice (a ++ b) (Z.of_nat (String.length a))
        (Z.of_nat (String.length a) + Z.of_nat (String.length b)) = b.
Proof.
  unfold slice. rewrite Nat2Z.id.
  replace (Z.of_nat (String.length a) + Z.of_nat (String.length b)
           - Z.of_nat (String.length a)) with (Z.of_nat (String.length b)) by lia.
  rewrite Nat2Z.id, substring_skip. apply substring_all.
Qed.

Lemma forallb_rev {A} (p : A -> bool) (l : list A) :
  forallb p (rev l) = forallb p l.
Proof.
  destruct (forallb p l) eqn:E.
  - apply forallb_forall. intros x Hx. apply in_rev in Hx.
    rewrite forallb_forall in E. auto.
  - destruct (forallb p (rev l)) eqn:E'; [| reflexivity].
    rewrite <- E. symmetry. apply forallb_forall. intros x Hx.
    rewrite forallb_forall in E'. apply E'. apply in_rev in Hx. exact Hx.
Qed.

(** A name without any dot has no extension. *)
Lemma extname_no_dot (name : string) :
  no_dot name = true -> extname name = "".
Proof.
  intros H. unfold extname.
  rewrite (ext_loop_no_dot (rev (list_ascii_of_string name))); [reflexivity | | reflexivity].
  rewrite forallb_rev. exact H.
Qed.

(** A name that ends in a dot followed by a non-empty run of plain code
    units, with something other than a slash before the dot, has that dot
    and run as its extension. *)
Lemma extname_dotted (pre : string) (c : ascii) (e : string) :
  (code c =? CHAR_FORWARD_SLASH)%Z = false ->
  plain e = true -> e <> "" ->
  extname (pre ++ String c ("." ++ e)) = ("." ++ e)%string.
Proof.
  intros Hc He Hne.
  set (a := (pre ++ String c "")%string).
  assert (Hpath : (pre ++ String c ("." ++ e) = a ++ ("." ++ e))%string).
  { unfold a. rewrite string_app_assoc. reflexivity. }
  rewrite Hpath.
  set (le := list_ascii_of_string e).
  set (lp := list_ascii_of_string pre).
  assert (Hlen_e : (0 < List.length le)%nat).
  { unfold le. rewrite list_ascii_of_string_length.
    destruct e; [congruence | simpl; lia]. }
  assert (Hcs : rev (list_ascii_of_string (a ++ ("." ++ e)))
                = (rev le ++ "."%char :: c :: rev lp)%list).
  { unfold a. rewrite !list_ascii_of_string_app. cbn [list_ascii_of_string].
    fold le lp. rewrite !rev_app_distr. cbn [rev app].
    rewrite <- !app_assoc. reflexivity. }
  assert (Hn : Z.of_nat (List.length (list_ascii_of_string (a ++ ("." ++ e))))
               = Z.of_nat (String.length a) + 1 + Z.of_nat (List.length le)).
  { rewrite list_ascii_of_string_length, !string_app_length.
    cbn [String.length]. unfold le.
    rewrite list_ascii_of_string_length. lia. }
  unfold extname. rewrite Hcs, Hn.
  set (i0 := Z.of_nat (String.length a) + 1 + Z.of_nat (List.length le) - 1).
  rewrite ext_loop_plain_run;
    [ | rewrite forallb_rev; exact He | reflexivity
      | rewrite length_rev; unfold i0; lia ].
  rewrite length_rev.
  destruct (rev le) as [| r0 rl] eqn:Hrev.
  { apply (f_equal (@List.length ascii)) in Hrev. rewrite length_rev in Hrev.
    simpl in Hrev. lia. }
  set (st1 := mark_end i0 ext_init).
  set (j := i0 - Z.of_nat (List.length le)).
  assert (Hj : j = Z.of_nat (String.length a)) by (unfold j, i0; lia).
  rewrite ext_loop_cons.
  replace (code "."%char =? CHAR_FORWARD_SLASH)%Z with false by reflexivity.
  set (st2 := ext_step "."%char j st1).
  assert (Hst2 : startDot st2 = j /\ end_ st2 = i0 + 1
                 /\ matchedSlash st2 = false).
  { assert (Hi0 : (i0 + 1 =? -1)%Z = false)
      by (apply Z.eqb_neq; unfold i0; lia).
    unfold st2, st1, ext_step, mark_end.
    replace (code "."%char =? CHAR_DOT)%Z with true by reflexivity.
    cbn. rewrite !Hi0. cbn. repeat split. }
  destruct Hst2 as (D2 & E2 & M2).
  pose proof (ext_loop_before_dot c (rev lp) (j - 1) st2 Hc) as Hfin.
  cbn zeta in Hfin.
  destruct Hfin as (D3 & E3 & P3); [lia | lia | exact M2 |].
  set (st3 := ext_loop (c :: rev lp) (j - 1) st2) in *.
  rewrite D3, E3, D2, E2.
  replace (j =? -1)%Z with false by (symmetry; apply Z.eqb_neq; lia).
  replace (i0 + 1 =? -1)%Z with false by (symmetry; apply Z.eqb_neq; unfold i0; lia).
  replace (preDotState st3 =? 0)%Z with false by (symmetry; apply Z.eqb_neq; exact P3).
  replace (j =? i0 + 1 - 1)%Z with false
    by (symmetry; apply Z.eqb_neq; unfold j; lia).
  rewrite andb_false_r. cbn [orb andb].
  rewrite Hj. unfold i0.
  replace (Z.of_nat (String.length a) + 1 + Z.of_nat (List.length le) - 1 + 1)
    with (Z.of_nat (String.length a) + Z.of_nat (String.length ("." ++ e)))
    by (rewrite string_app_length; cbn [String.length]; unfold le;
        rewrite list_ascii_of_string_length; lia).
  apply slice_suffix.
Qed.

(** [extname] on a few names, among them the corner cases of the scan. *)
Example extname_upper : extname "clip.MP3" = ".MP3".
Proof. reflexivity. Qed.

Example extname_dotfile : extname ".bashrc" = "".
Proof. reflexivity. Qed.

Example extname_directory_dot : extname "a/b.c/d" = "".
Proof. reflexivity. Qed.

Example extname_last_dot : extname "archive.tar.gz" = ".gz".
Proof. reflexivity. Qed.

Example extname_parent : extname ".." = "".
Proof. reflexivity. Qed.

Example extname_trailing_dot : extname "x." = ".".
Proof. reflexivity. Qed.

Example extname_trailing_slash : extname "dir/take.wav/" = ".wav".
Proof. reflexivity. Qed.

Example toLowerCase_latin1 :
  toLowerCase (String (of_code 201) "T.FLAC") = String (of_code 233) "t.flac".
Proof. reflexivity. Qed.

End Extname.

(** ** Content-type resolution *)

Lemma getAudioMimeType_declared (f : MulterFile) :
  mimetype f <> "" -> mimetype f <> "application/octet-stream" ->
  getAudioMimeType f = mimetype f.
Proof.
  intros H1 H2. unfold getAudioMimeType, truthy.
  apply String.eqb_neq in H1. apply String.eqb_neq in H2.
  rewrite H1, H2. reflexivity.
Qed.

Lemma getAudioMimeType_generic (f : MulterFile) :
  mimetype f = "" \/ mimetype f = "application/octet-stream" ->
  getAudioMimeType f
  = type_of_extension (toLowerCase (extname (originalname f))).
Proof.
  intros H.
  assert (Hg : truthy (JStr (mimetype f))
               && negb (mimetype f =? "application/octet-stream")%string = false)
    by (destruct H as [-> | ->]; reflexivity).
  unfold getAudioMimeType. rewrite Hg. cbv zeta.
  generalize (toLowerCase (extname (originalname f))). intros ext.
  unfold type_of_extension, extension_types.
  destruct (String.eqb_spec ext ".mp3") as [-> | N1]; [reflexivity |].
  destruct (String.eqb_spec ext ".wav") as [-> | N2]; [reflexivity |].
  destruct (String.eqb_spec ext ".ogg") as [-> | N3]; [reflexivity |].
  destruct (String.eqb_spec ext ".m4a") as [-> | N4]; [reflexivity |].
  destruct (String.eqb_spec ext ".flac") as [-> | N5]; [reflexivity |].
  rewrite !lookup_insert_ne by congruence. reflexivity.
Qed.

(** C2.  Content-type resolution: a declared media type that is non-empty
    and not ['application/octet-stream'] is returned unchanged; otherwise
    the lower-cased extension of the file name decides, [.mp3] giving
    [audio/mpeg], [.wav] [audio/wav], [.ogg] [audio/ogg], [.m4a]
    [audio/mp4], [.flac] [audio/flac], and every other or missing extension
    [audio/wav].  The extension is the one [path.extname] returns; for a
    name [pre c . e] with [c] not a slash and [e] a non-empty run without
    dot or slash it is [.e], and a name without a dot has none. *)
Theorem getAudioMimeType_resolution (f : MulterFile) :
  (mimetype f <> "" -> mimetype f <> "application/octet-stream" ->
     getAudioMimeType f = mimetype f)
  /\ (mimetype f = "" \/ mimetype f = "application/octet-stream" ->
      let ext := toLowerCase (extname (originalname f)) in
      getAudioMimeType f = type_of_extension ext
      /\ (ext = ".mp3" -> getAudioMimeType f = "audio/mpeg")
      /\ (ext = ".wav" -> getAudioMimeType f = "audio/wav")
      /\ (ext = ".ogg" -> getAudioMimeType f = "audio/ogg")
      /\ (ext = ".m4a" -> getAudioMimeType f = "audio/mp4")
      /\ (ext = ".flac" -> getAudioMimeType f = "audio/flac")
      /\ (ext ∉ [".mp3"; ".wav"; ".ogg"; ".m4a"; ".flac"] ->
          getAudioMimeType f = "audio/wav")
      /\ (forall pre c e,
            (code c =? CHAR_FORWARD_SLASH)%Z = false ->
            plain e = true -> e <> "" ->
            originalname f = (pre ++ String c ("." ++ e))%string ->
            ext = toLowerCase ("." ++ e))
      /\ (no_dot (originalname f) = true ->
          getAudioMimeType f = "audio/wav")).
Proof.
  split; [apply getAudioMimeType_declared |].
  intros Hgen ext.
  pose proof (getAudioMimeType_generic f Hgen) as Heq. fold ext in Heq.
  split; [exact Heq |].
  repeat split.
  1-5: intros E; rewrite Heq, E; reflexivity.
  - intros Hnot. rewrite Heq. unfold type_of_extension, extension_types.
    rewrite !not_elem_of_cons in Hnot.
    destruct Hnot as (N1 & N2 & N3 & N4 & N5 & _).
    rewrite !lookup_insert_ne by congruence. reflexivity.
  - intros pre c e Hc He Hne Hname. unfold ext.
    rewrite Hname, extname_dotted by assumption. reflexivity.
  - intros Hnd. rewrite Heq. unfold ext.
    rewrite extname_no_dot by assumption. reflexivity.
Qed.

Lemma getAudioMimeType_resolution_witness :
  getAudioMimeType
    {| fieldname := "audio"; originalname := "Interview.M4A";
       mimetype := "application/octet-stream"; size := 2048;
       path := "/tmp/3f9c" |} = "audio/mp4".
Proof.
  pose proof (getAudioMimeType_resolution
    {| fieldname := "audio"; originalname := "Interview.M4A";
       mimetype := "application/octet-stream"; size := 2048;
       path := "/tmp/3f9c" |}) as [_ H].
  destruct H as (_ & _ & _ & _ & H & _); [right; reflexivity |].
  apply H. reflexivity.
Defined.

(** ** Model resolution *)

(** A key the mapping defines resolves to the identifier bound to it. *)
Lemma modelName_own_key (k : string) (v : jsval) :
  own_lookup HF_MODELS k = Some v -> modelName (Some k) = v.
Proof.
  unfold HF_MODELS. cbn [own_lookup].
  destruct (String.eqb_spec "whisper-large-turbo" k) as [<- | N1].
  { intros [= <-]. reflexivity. }
  destruct (String.eqb_spec "whisper-large" k) as [<- | N2].
  { intros [= <-]. reflexivity. }
  discriminate.
Qed.

(** A key that is neither defined by the mapping nor inherited from
    [Object.prototype] resolves to the identifier of the default key. *)
Lemma modelName_unknown_key (k : string) :
  own_lookup HF_MODELS k = None -> object_prototype_get k = JUndefined ->
  modelName (Some k) = JStr "openai/whisper-large-v3".
Proof.
  intros Hown Hproto. unfold modelName, modelKey, or_else at 2. cbn [of_opt truthy].
  destruct (String.eqb_spec k "") as [-> | Hk]; [reflexivity |].
  cbn [negb to_string]. unfold get_prop at 1. rewrite Hown, Hproto.
  reflexivity.
Qed.

(** C3.  Model resolution at a key the mapping does not define but every
    object inherits: the key ['constructor'] is not a key of [HF_MODELS],
    yet it does not resolve to the identifier of the default key; the
    inherited function is taken, and the request goes to a path made of its
    source text. *)
Theorem modelName_inherited_key :
  own_lookup HF_MODELS "constructor" = None
  /\ modelName None = JStr "openai/whisper-large-v3"
  /\ modelName (Some "constructor") = JNativeFn "Object"
  /\ (forall env f buf,
        url (outbound_call env f (Some "constructor") buf)
        = "https://api-inference.huggingface.co/models/function Object() { [native code] }").
Proof.
  split; [reflexivity |]. split; [reflexivity |]. split; [reflexivity |].
  intros env f buf. reflexivity.
Qed.

(** C10.  An empty or absent [model] parameter: the key looked up is the
    default key, never the empty string, the identifier is the default
    one, and the whole request is handled as the same request without the
    parameter. *)
Theorem empty_model_key_is_default (q : option string) :
  q = None \/ q = Some "" ->
  modelKey q = JStr "whisper-large"
  /\ to_string (modelKey q) <> ""
  /\ modelName q = JStr "openai/whisper-large-v3"
  /\ modelName q = modelName None
  /\ (forall env ps w,
        post_transcribe env {| parts := ps; model := q |} w
        = post_transcribe env {| parts := ps; model := None |} w).
Proof.
  intros [-> | ->].
  - repeat split; try reflexivity. discriminate.
  - split; [reflexivity |]. split; [discriminate |].
    split; [reflexivity |]. split; [reflexivity |].
    intros env ps w. unfold post_transcribe. cbn [parts model].
    destruct (multer_single env fileFilter "audio" ps w) as [w' [fo | e]];
      [| reflexivity].
    unfold transcribe. cbn [file query_model].
    destruct fo as [f |]; reflexivity.
Qed.

Lemma empty_model_key_is_default_witness :
  modelName (Some "") = JStr "openai/whisper-large-v3".
Proof.
  apply (empty_model_key_is_default (Some "")). right. reflexivity.
Defined.

(** ** Objects as key-value tables *)

Lemma existsb_eqb_elem (k : string) (l : list string) :
  existsb (String.eqb k) l = true <-> k ∈ l.
Proof.
  rewrite existsb_exists. split.
  - intros (x & Hin & Heq). apply String.eqb_eq in Heq. subst x.
    apply list_elem_of_In. exact Hin.
  - intros Hin. exists k. split; [apply list_elem_of_In; exact Hin |].
    apply String.eqb_refl.
Qed.

(** The keys with an own property are the keys written in the literal. *)
Lemma own_lookup_is_Some (props : list (string * jsval)) (k : string) :
  is_Some (own_lookup props k) <-> k ∈ map fst props.
Proof.
  induction props as [| [k' v] rest IH]; cbn [own_lookup map fst].
  - split; [intros [x Hx]; discriminate | intros H; inversion H].
  - rewrite elem_of_cons, <- IH.
    destruct (own_lookup rest k) as [v' |] eqn:E.
    + split; [intros _; right; eauto | intros _; eauto].
    + destruct (String.eqb_spec k' k) as [-> | N].
      * split; [intros _; left; reflexivity | intros _; eauto].
      * split; [intros [x Hx]; discriminate |].
        intros [-> | [x Hx]]; [congruence | discriminate].
Qed.

Lemma keys_after_elem (props : list (string * jsval)) (k : string) :
  forall seen,
  k ∈ keys_after seen props <-> k ∈ map fst props /\ k ∉ seen.
Proof.
  induction props as [| [k' v] rest IH]; intros seen; cbn [keys_after map fst].
  - split; [intros H; inversion H | intros [H _]; inversion H].
  - destruct (existsb (String.eqb k') seen) eqn:E.
    + apply existsb_eqb_elem in E. rewrite IH, elem_of_cons.
      split; [intros [H1 H2]; auto |].
      intros [[-> | H1] H2]; [contradiction | auto].
    + assert (Hk' : k' ∉ seen).
      { intros Hin. apply existsb_eqb_elem in Hin. congruence. }
      rewrite !elem_of_cons, IH, not_elem_of_cons.
      split.
      * intros [-> | (H1 & H2 & H3)]; auto.
      * intros [[-> | H1] H2]; [auto |].
        destruct (decide (k = k')) as [-> | N]; auto.
Qed.

Lemma keys_after_NoDup (props : list (string * jsval)) :
  forall seen, NoDup (keys_after seen props).
Proof.
  induction props as [| [k' v] rest IH]; intros seen; cbn [keys_after].
  - constructor.
  - destruct (existsb (String.eqb k') seen); [apply IH |].
    apply NoDup_cons. split; [| apply IH].
    intros Hin. apply keys_after_elem in Hin as [_ Hin].
    apply Hin. left.
Qed.

(** [Object.keys] lists every key of the object once. *)
Lemma own_keys_complete (props : list (string * jsval)) (k : string) :
  k ∈ own_keys props <-> is_Some (own_lookup props k).
Proof.
  unfold own_keys. rewrite keys_after_elem, own_lookup_is_Some.
  split; [intros [H _]; exact H | intros H; split; [exact H | apply not_elem_of_nil]].
Qed.

Lemma own_keys_NoDup (props : list (string * jsval)) : NoDup (own_keys props).
Proof. apply keys_after_NoDup. Qed.

(** ** Model listing *)

(** A key that [Object.prototype] does not define is described by the
    table, or as unknown when the table has no text for it. *)
Lemma getModelDescription_plain_key (k d : string) :
  object_prototype_get k = JUndefined ->
  (own_lookup descriptions k = Some (JStr d) -> d <> "" ->
     getModelDescription k = JStr d)
  /\ (own_lookup descriptions k = None ->
      getModelDescription k = JStr "Unknown model").
Proof.
  intros Hproto. unfold getModelDescription, get_prop, or_else. split.
  - intros -> Hd. cbn [truthy]. apply String.eqb_neq in Hd. rewrite Hd. reflexivity.
  - intros ->. rewrite Hproto. reflexivity.
Qed.

(** C8.  [GET /api/models] lists the keys of the model mapping, each once,
    in the order of [Object.keys]; every entry carries its key, the
    identifier the mapping binds to it as name, and a non-empty
    description, which is the text of the description table, and the
    literal ['Unknown model'] exactly when the table has no text for the
    key. *)
Theorem listModels_complete :
  map key listModels = own_keys HF_MODELS
  /\ map key listModels = ["whisper-large"; "whisper-large-turbo"]
  /\ NoDup (map key listModels)
  /\ (forall k, k ∈ map key listModels <-> is_Some (own_lookup HF_MODELS k))
  /\ (forall m, m ∈ listModels ->
        own_lookup HF_MODELS (key m) = Some (name m)
        /\ (exists d, description m = JStr d /\ d <> "")
        /\ description m
           = default (JStr "Unknown model") (own_lookup descriptions (key m))
        /\ (description m = JStr "Unknown model"
            <-> own_lookup descriptions (key m) = None)).
Proof.
  assert (Hkeys : map key listModels = own_keys HF_MODELS) by reflexivity.
  split; [exact Hkeys |].
  split; [reflexivity |].
  split; [rewrite Hkeys; apply own_keys_NoDup |].
  split; [intros k; rewrite Hkeys; apply own_keys_complete |].
  intros m Hm.
  assert (E : listModels
    = [ {| key := "whisper-large"; name := JStr "openai/whisper-large-v3";
           description := JStr "Best accuracy, standard speed (1.5GB)" |};
        {| key := "whisper-large-turbo";
           name := JStr "openai/whisper-large-v3-turbo";
           description :=
             JStr "Best accuracy, faster and cheaper (newest, 1.5GB)" |} ])
    by reflexivity.
  rewrite E in Hm. clear E.
  apply elem_of_cons in Hm as [-> | Hm];
    [| apply elem_of_cons in Hm as [-> | Hm]; [| inversion Hm]].
  all: cbn [key name description].
  all: split; [reflexivity |].
  all: split; [eexists; split; [reflexivity | discriminate] |].
  all: split; [reflexivity |].
  all: split; [intros H; discriminate H | intros H; vm_compute in H; discriminate H].
Qed.

(** ** The transcription handler *)

Section Handler.

Variable env : Env.
Variable req : Request.
Variable f : MulterFile.
Hypothesis Hfile : file req = Some f.

Lemma transcribe_unconfigured (w : World) :
  configured env = false ->
  transcribe env req w
  = (w, {| status := 500;
           body := error_body "Server configuration error"
                              "HuggingFace API token not configured" |}).
Proof. intros Hc. unfold transcribe. rewrite Hfile, Hc. reflexivity. Qed.

Lemma transcribe_configured (w : World) :
  configured env = true ->
  transcribe env req w
  = match try_block env f (query_model req) w with
    | (w', inl r) => (w', r)
    | (w', inr error) => catch_block f error w'
    end.
Proof. intros Hc. unfold transcribe. rewrite Hfile, Hc. reflexivity. Qed.

Lemma catch_block_response (error : JsError) (w : World) :
  snd (catch_block f error w) = error_response error.
Proof.
  unfold catch_block.
  destruct (try_catch (unlinkSync (path f)) (fun _ => ret tt) w) as [w' x].
  reflexivity.
Qed.

(** The clean-up of the [catch] block: afterwards the file is gone unless
    its removal is refused; other files and the call log are untouched. *)
Lemma catch_block_world (error : JsError) (w : World) :
  let w' := fst (catch_block f error w) in
  outbound w' = outbound w
  /\ pinned w' = pinned w
  /\ (path f ∉ pinned w -> fs w' !! path f = None)
  /\ (forall p, p <> path f -> fs w' !! p = fs w !! p).
Proof.
  unfold catch_block, try_catch, unlinkSync, ret.
  destruct (fs w !! path f) as [c |] eqn:E; cbn.
  - destruct (decide (path f ∈ pinned w)) as [Hp | Hp]; cbn.
    + repeat split; auto. intros H. contradiction.
    + repeat split; auto.
      * intros _. apply lookup_delete_eq.
      * intros p Hne. apply lookup_delete_ne. congruence.
  - repeat split; auto.
Qed.

Lemma try_block_read_failure (w : World) :
  fs w !! path f = None ->
  try_block env f (query_model req) w = (w, inr (enoent "open" (path f))).
Proof.
  intros E. unfold try_block, bind, readFileSync. rewrite E. reflexivity.
Qed.

Lemma try_block_rejected (w : World) (content : string) (e : JsError) :
  fs w !! path f = Some content ->
  upstream env (outbound_call env f (query_model req) content) = Rejected e ->
  try_block env f (query_model req) w
  = (log_call w (outbound_call env f (query_model req) content), inr e).
Proof.
  intros E U. unfold try_block, bind, readFileSync, axios_post.
  rewrite E, U. reflexivity.
Qed.

Lemma try_block_resolved (w : World) (content : string) (d : jsval) :
  fs w !! path f = Some content ->
  upstream env (outbound_call env f (query_model req) content) = Resolved d ->
  try_block env f (query_model req) w
  = let w1 := log_call w (outbound_call env f (query_model req) content) in
    if decide (path f ∈ pinned w)
    then (w1, inr (eperm "unlink" (path f)))
    else (set_fs w1 (delete (path f) (fs w)),
          inl (success_response env f (query_model req) d)).
Proof.
  intros E U. unfold try_block, bind, readFileSync, axios_post, unlinkSync, ret.
  rewrite E, U. cbn [log_call fs pinned].
  rewrite E. destruct (decide (path f ∈ pinned w)); reflexivity.
Qed.

(** Every error the [try] block throws is answered by [error_response]. *)
Lemma transcribe_thrown (w w' : World) (e : JsError) :
  configured env = true ->
  try_block env f (query_model req) w = (w', inr e) ->
  snd (transcribe env req w) = error_response e.
Proof.
  intros Hc Ht. rewrite transcribe_configured, Ht by assumption.
  apply catch_block_response.
Qed.

End Handler.


(** C5.  A failure without an upstream response: the timeout of the
    outbound call (axios reports it under the code ECONNABORTED) is
    answered 408 'Request timeout'; every other failure is answered 500
    'Internal server error' with the failure's message as details, a file
    that cannot be read among them. *)
Theorem timeout_and_local_failure
    (env : Env) (req : Request) (f : MulterFile) (w : World) :
  file req = Some f ->
  configured env = true ->
  let r := snd (transcribe env req w) in
  let request_timeout :=
    {| status := 408;
       body := error_body "Request timeout"
         "Transcription took too long. Please try with a shorter audio file." |} in
  (forall content,
     timeout (outbound_call env f (query_model req) content) = 60000)
  /\ (forall content,
     fs w !! path f = Some content ->
     upstream env (outbound_call env f (query_model req) content)
     = Rejected (timeout_error 60000) ->
     r = request_timeout)
  /\ (forall w' e,
        try_block env f (query_model req) w = (w', inr e) ->
        response e = None -> ecode e = Some "ECONNABORTED" ->
        r = request_timeout)
  /\ (forall w' e,
        try_block env f (query_model req) w = (w', inr e) ->
        response e = None -> ecode e <> Some "ECONNABORTED" ->
        r = {| status := 500;
               body := error_body "Internal server error" (message e) |})
  /\ (fs w !! path f = None ->
      r = {| status := 500;
             body := error_body "Internal server error"
                       (message (enoent "open" (path f))) |}
      /\ outbound (fst (transcribe env req w)) = outbound w).
Proof.
  intros Hfile Hc r request_timeout.
  split; [reflexivity |].
  split; [| split; [| split]].
  - intros content Hread Hup. unfold r.
    pose proof (try_block_rejected env req f w content _ Hread Hup) as Ht.
    rewrite (transcribe_thrown env req f Hfile w _ _ Hc Ht). reflexivity.
  - intros w' e Ht Hresp Hcode. unfold r.
    erewrite transcribe_thrown by eassumption.
    unfold error_response. rewrite Hresp, Hcode. reflexivity.
  - intros w' e Ht Hresp Hcode. unfold r.
    erewrite transcribe_thrown by eassumption.
    unfold error_response. rewrite Hresp.
    destruct (ecode e) as [c |]; [| reflexivity].
    destruct (String.eqb_spec c "ECONNABORTED") as [-> | N]; [congruence | reflexivity].
  - intros Hnone.
    pose proof (try_block_read_failure env req f w Hnone) as Ht.
    split.
    + unfold r. erewrite transcribe_thrown by eassumption. reflexivity.
    + rewrite (transcribe_configured env req f Hfile w Hc), Ht.
      apply catch_block_world.
Qed.


Lemma timeout_and_local_failure_witness :
  status (snd (transcribe
    (Sample.env_of (Some "hf_token") (Rejected (timeout_error 60000)))
    Sample.memo_request Sample.uploaded)) = 408.
Proof.
  pose proof (timeout_and_local_failure
    (Sample.env_of (Some "hf_token") (Rejected (timeout_error 60000)))
    Sample.memo_request Sample.memo Sample.uploaded eq_refl eq_refl) as H.
  cbv zeta in H. destruct H as (_ & H & _).
  rewrite (H "RIFF" eq_refl eq_refl). reflexivity.
Defined.

(** ** Requests without a file *)



(** A text field within the limit is passed over. *)
Lemma on_field_small (fld v : string) (st : Intake) (w : World) :
  (Z.of_nat (String.length v) < fieldSizeLimit)%Z ->
  on_field fld v st w = (w, inl st).
Proof.
  intros H. unfold on_field.
  replace (fieldSizeLimit <=? Z.of_nat (String.length v))%Z with false
    by (symmetry; apply Z.leb_gt; exact H).
  reflexivity.
Qed.

(** A text field at or over the limit aborts the upload. *)
Lemma on_field_long (fld v : string) (st : Intake) (w : World) :
  (fieldSizeLimit <= Z.of_nat (String.length v))%Z ->
  on_field fld v st w
  = (w, inr (multer_error "LIMIT_FIELD_VALUE" "Field value too long")).
Proof.
  intros H. unfold on_field.
  replace (fieldSizeLimit <=? Z.of_nat (String.length v))%Z with true
    by (symmetry; apply Z.leb_le; exact H).
  reflexivity.
Qed.








(** ** Removal of the temporary file *)

(** With a token configured, the handler leaves no temporary file behind
    unless the removal itself is refused. *)
Lemma transcribe_removes_temp_file
    (env : Env) (req : Request) (f : MulterFile) (w : World) :
  file req = Some f -> configured env = true -> path f ∉ pinned w ->
  fs (fst (transcribe env req w)) !! path f = None.
Proof.
  intros Hfile Hc Hpin. rewrite (transcribe_configured env req f Hfile w Hc).
  destruct (fs w !! path f) as [content |] eqn:Hread.
  - destruct (upstream env (outbound_call env f (query_model req) content))
      as [d | e] eqn:Hup.
    + rewrite (try_block_resolved env req f w content d Hread Hup). cbv zeta.
      destruct (decide (path f ∈ pinned w)); [contradiction |].
      cbn [fst set_fs fs]. apply lookup_delete_eq.
    + rewrite (try_block_rejected env req f w content e Hread Hup).
      apply catch_block_world. exact Hpin.
  - rewrite (try_block_read_failure env req f w Hread).
    apply catch_block_world. exact Hpin.
Qed.

(** C1.  The branch for a missing token returns before the [try] block:
    an upload stored by intake is answered 500 'Server configuration
    error' and its temporary file is still there afterwards, while the
    same upload with a token configured leaves no file behind. *)
Theorem missing_token_leaves_temp_file :
  let without_token := Sample.env_of None (Resolved Sample.transcript) in
  let with_token := Sample.env_of (Some "hf_token") (Resolved Sample.transcript) in
  let after := post_transcribe without_token Sample.memo_upload Sample.empty_world in
  snd after
  = {| status := 500;
       body := error_body "Server configuration error"
                          "HuggingFace API token not configured" |}
  /\ fs (fst after) !! "/tmp/9f2c41" = Some "RIFF"
  /\ fs (fst (post_transcribe with_token Sample.memo_upload Sample.empty_world))
       !! "/tmp/9f2c41" = None.
Proof.
  cbv zeta. split; [reflexivity |]. split; vm_compute; reflexivity.
Qed.

(** A refused removal after a successful upstream call turns the answer
    into a 500: the removal on the success path stands inside the [try]
    block, unguarded. *)
Lemma unlink_failure_replaces_success :
  let env := Sample.env_of (Some "hf_token") (Resolved Sample.transcript) in
  status (snd (transcribe env Sample.memo_request Sample.uploaded)) = 200
  /\ snd (transcribe env Sample.memo_request Sample.uploaded_pinned)
     = {| status := 500;
          body := error_body "Internal server error"
            "EPERM: operation not permitted, unlink '/tmp/9f2c41'" |}.
Proof. cbv zeta. split; vm_compute; reflexivity. Qed.

(** ** Intake *)

Section Intake.

Variable env : Env.
Variable name : string.

Lemma intake_inv_init :
  intake_inv name {| filesLeft := {[ name := 1%nat ]}; stored := None |}.
Proof.
  split; cbn [filesLeft stored]; [| discriminate].
  intros fld H. destruct (decide (name = fld)) as [E | N]; [symmetry; exact E |].
  rewrite lookup_singleton_ne in H by exact N. cbn in H. lia.
Qed.

(** Writing a file and removing it again, as multer does with an upload
    that reached the size limit. *)
Lemma write_then_remove (f : MulterFile) (content : string) (e : JsError)
    (w : World) :
  bind (store env f content)
       (fun f' => bind (try_catch (unlinkSync (path f')) (fun _ => ret tt))
                       (fun _ => throw (A := Intake) e)) w
  = (if decide (temp_path env ∈ pinned w)
     then set_fs w (<[temp_path env := content]> (fs w))
     else set_fs w (delete (temp_path env) (fs w)),
     inr e).
Proof.
  unfold bind, store, try_catch, unlinkSync, ret, throw, temp_path.
  cbn [set_fs fs pinned path]. rewrite lookup_insert_eq.
  destruct (decide ((dest ++ tmpname env)%string ∈ pinned w)); [reflexivity |].
  cbn [set_fs fs pinned outbound]. rewrite delete_insert_eq. reflexivity.
Qed.

(** One file event: the call log is untouched, and a success keeps the
    invariant. *)
Lemma on_file_spec (filter : MulterFile -> FilterResult)
    (fld fname mime content : string) (st : Intake) (w : World) :
  intake_inv name st ->
  match on_file env filter fld fname mime content st w with
  | (w', inl st') => outbound w' = outbound w /\ intake_inv name st'
  | (w', inr e) => outbound w' = outbound w
  end.
Proof.
  intros [Hleft Hstored]. unfold on_file.
  destruct (negb (truthy (JStr fname))); [cbn; split; [reflexivity | split; assumption] |].
  cbv zeta.
  destruct (default 0%nat (filesLeft st !! fld) <=? 0)%nat eqn:El; [reflexivity |].
  apply Nat.leb_gt in El. pose proof (Hleft fld El) as Hfld.
  destruct (filter _); [| reflexivity].
  destruct (fileSizeLimit <=? Z.of_nat (String.length content))%Z.
  { rewrite write_then_remove.
    destruct (decide (temp_path env ∈ pinned w)); reflexivity. }
  cbn. split; [reflexivity |]. split; cbn [filesLeft stored].
  - intros fld' H. destruct (decide (fld = fld')) as [<- | N]; [exact Hfld |].
    rewrite lookup_insert_ne in H by exact N. apply Hleft. exact H.
  - intros f' [= <-]. exact Hfld.
Qed.

Lemma remove_uploaded_outbound (st : Intake) (w : World) :
  outbound (fst (remove_uploaded st w)) = outbound w.
Proof.
  unfold remove_uploaded. destruct (stored st) as [f |]; [| reflexivity].
  unfold try_catch, unlinkSync, ret.
  destruct (fs w !! path f); [| reflexivity].
  destruct (decide (path f ∈ pinned w)); reflexivity.
Qed.

(** Aborting an upload: what was stored is removed, the error goes on. *)
Lemma abort_upload (st : Intake) (e : JsError) (w : World) :
  bind (remove_uploaded st) (fun _ => throw (A := Intake) e) w
  = (fst (remove_uploaded st w), inr e).
Proof.
  unfold bind, throw, remove_uploaded.
  destruct (stored st) as [f |]; [| reflexivity].
  unfold try_catch, unlinkSync, ret.
  destruct (fs w !! path f); [| reflexivity].
  destruct (decide (path f ∈ pinned w)); reflexivity.
Qed.

(** One field event, by the length of the value. *)
Lemma on_field_cases (fld v : string) (st : Intake) (w : World) :
  on_field fld v st w = (w, inl st)
  \/ on_field fld v st w
     = (w, inr (multer_error "LIMIT_FIELD_VALUE" "Field value too long")).
Proof.
  destruct (Z_lt_le_dec (Z.of_nat (String.length v)) fieldSizeLimit) as [Hv | Hv];
    [left; apply on_field_small | right; apply on_field_long]; exact Hv.
Qed.

(** Reading the parts never touches the call log, and what it stores came
    under the field [name]. *)
Lemma read_parts_spec (filter : MulterFile -> FilterResult) (ps : list Part) :
  forall st w,
  intake_inv name st ->
  match read_parts env filter ps st w with
  | (w', inl st') => outbound w' = outbound w /\ intake_inv name st'
  | (w', inr e) => outbound w' = outbound w
  end.
Proof.
  induction ps as [| p ps IH]; intros st w Hinv.
  - cbn. split; [reflexivity | exact Hinv].
  - destruct p as [fld v | fld fname mime content]; cbn [read_parts];
      unfold bind at 1; unfold try_catch.
    + destruct (on_field_cases fld v st w) as [E | E]; rewrite E.
      * apply IH. exact Hinv.
      * rewrite abort_upload. apply remove_uploaded_outbound.
    + pose proof (on_file_spec filter fld fname mime content st w Hinv) as Hon.
      destruct (on_file env filter fld fname mime content st w) as [w1 [st1 | e]].
      * destruct Hon as [Hout Hinv1]. specialize (IH st1 w1 Hinv1).
        destruct (read_parts env filter ps st1 w1) as [w2 [st2 | e2]].
        -- destruct IH as [H1 H2]. split; [congruence | exact H2].
        -- congruence.
      * rewrite abort_upload, remove_uploaded_outbound. exact Hon.
Qed.

End Intake.

(** ** The file filter *)

Lemma fold_case_length (s : string) :
  String.length (fold_case s) = String.length s.
Proof. induction s as [| c s IH]; cbn; [reflexivity | rewrite IH; reflexivity]. Qed.

Lemma substring_split (s : string) : forall m,
  (m <= String.length s)%nat ->
  s = (String.substring 0 m s
       ++ String.substring m (String.length s - m) s)%string.
Proof.
  induction s as [| c s IH]; intros m Hm.
  - cbn in Hm. assert (m = 0%nat) as -> by lia. reflexivity.
  - destruct m as [| m].
    + cbn [String.substring String.length]. rewrite Nat.sub_0_r.
      change (String c s = String c (String.substring 0 (String.length s) s)).
      rewrite substring_all. reflexivity.
    + cbn [String.length] in Hm.
      cbn [String.substring String.length Nat.sub]. rewrite string_app_cons.
      f_equal. apply IH. lia.
Qed.

(** The test under case folding is a test on a suffix of the name. *)
Lemma ends_with_fold_iff (suffix s : string) :
  ends_with_fold suffix s = true
  <-> exists stem sfx, s = (stem ++ sfx)%string
                       /\ fold_case sfx = fold_case suffix.
Proof.
  unfold ends_with_fold. rewrite andb_true_iff, Nat.leb_le, String.eqb_eq.
  set (n := String.length s). set (k := String.length suffix).
  split.
  - intros [Hk Hfold].
    exists (String.substring 0 (n - k) s), (String.substring (n - k) k s).
    split; [| exact Hfold].
    pose proof (substring_split s (n - k)) as Hsp. fold n in Hsp.
    replace (n - (n - k))%nat with k in Hsp by lia.
    apply Hsp. lia.
  - intros (stem & sfx & -> & Hfold).
    assert (Hlen : String.length sfx = k).
    { unfold k. rewrite <- (fold_case_length sfx), Hfold. apply fold_case_length. }
    assert (Hn : n = (String.length stem + k)%nat).
    { unfold n. rewrite string_app_length, Hlen. reflexivity. }
    split; [lia |].
    replace (n - k)%nat with (String.length stem) by lia.
    rewrite substring_skip, <- Hlen, substring_all. exact Hfold.
Qed.

Lemma matches_audio_extension_iff (name : string) :
  matches_audio_extension name = true
  <-> exists stem sfx e,
        name = (stem ++ sfx)%string
        /\ In e audio_extensions
        /\ fold_case sfx = fold_case ("." ++ e).
Proof.
  unfold matches_audio_extension. rewrite existsb_exists. split.
  - intros (e & Hin & H). apply ends_with_fold_iff in H as (stem & sfx & Hs & Hf).
    exists stem, sfx, e. auto.
  - intros (stem & sfx & e & Hs & Hin & Hf). exists e. split; [exact Hin |].
    apply ends_with_fold_iff. exists stem, sfx. auto.
Qed.

Example matches_any_case : matches_audio_extension "Take 3.Ogg" = true.
Proof. reflexivity. Qed.

Example matches_needs_dot : matches_audio_extension "mp3" = false.
Proof. reflexivity. Qed.

Example matches_bare_extension : matches_audio_extension ".aac" = true.
Proof. reflexivity. Qed.

Example matches_not_flac : matches_audio_extension "take.flac" = false.
Proof. reflexivity. Qed.

Lemma fileFilter_accept_iff (f : MulterFile) :
  fileFilter f = Accept
  <-> startsWith "audio/" (mimetype f) = true
      \/ fieldname f = "audio"
      \/ matches_audio_extension (originalname f) = true.
Proof.
  unfold fileFilter.
  assert (Hm : truthy (JStr (mimetype f)) && startsWith "audio/" (mimetype f)
               = startsWith "audio/" (mimetype f))
    by (destruct (mimetype f); reflexivity).
  assert (Hn : truthy (JStr (originalname f))
               && matches_audio_extension (originalname f)
               = matches_audio_extension (originalname f))
    by (destruct (originalname f); reflexivity).
  rewrite Hm, Hn.
  destruct (startsWith "audio/" (mimetype f)); [cbn; split; auto |].
  destruct (String.eqb_spec (fieldname f) "audio") as [E | N]; [cbn; split; auto |].
  destruct (matches_audio_extension (originalname f)); cbn; [split; auto |].
  split; [discriminate |]. intros [H | [H | H]]; congruence.
Qed.

Lemma fileFilter_reject (f : MulterFile) :
  fileFilter f <> Accept -> fileFilter f = Reject only_audio_error.
Proof.
  unfold fileFilter. destruct (_ || _ || _); [congruence | reflexivity].
Qed.

(** Under [single('audio')] the filter is only asked about files of the
    field it accepts whatever they are. *)
Lemma on_file_filter_irrelevant (env : Env)
    (fld fname mime content : string) (st : Intake) (w : World) :
  intake_inv "audio" st ->
  on_file env fileFilter fld fname mime content st w
  = on_file env accept_all fld fname mime content st w.
Proof.
  intros [Hleft _]. unfold on_file.
  destruct (negb (truthy (JStr fname))); [reflexivity |]. cbv zeta.
  destruct (default 0%nat (filesLeft st !! fld) <=? 0)%nat eqn:El; [reflexivity |].
  apply Nat.leb_gt in El. apply Hleft in El. subst fld.
  replace (fileFilter _) with Accept; [reflexivity |].
  symmetry. apply fileFilter_accept_iff. right. left. reflexivity.
Qed.

Lemma read_parts_filter_irrelevant (env : Env) (ps : list Part) :
  forall st w,
  intake_inv "audio" st ->
  read_parts env fileFilter ps st w = read_parts env accept_all ps st w.
Proof.
  induction ps as [| p ps IH]; intros st w Hinv; [reflexivity |].
  destruct p as [fld v | fld fname mime content]; cbn [read_parts];
    unfold bind at 1 3; unfold try_catch.
  - destruct (on_field_cases fld v st w) as [E | E]; rewrite E.
    + apply IH. exact Hinv.
    + rewrite !abort_upload. reflexivity.
  - rewrite on_file_filter_irrelevant by exact Hinv.
    pose proof (on_file_spec env "audio" accept_all fld fname mime content st w Hinv) as Hon.
    destruct (on_file env accept_all fld fname mime content st w) as [w1 [st1 | e]].
    + apply IH. apply Hon.
    + rewrite !abort_upload. reflexivity.
Qed.

(** What intake throws under the accepting filter is multer's own error. *)
Lemma read_parts_error_class (env : Env) (ps : list Part) :
  forall st w w' e,
  read_parts env accept_all ps st w = (w', inr e) -> eclass e = MulterError.
Proof.
  induction ps as [| p ps IH]; intros st w w' e; [discriminate |].
  destruct p as [fld v | fld fname mime content]; cbn [read_parts];
    unfold bind at 1; unfold try_catch.
  - destruct (on_field_cases fld v st w) as [E | E]; rewrite E; [apply IH |].
    rewrite abort_upload. intros [= _ <-]. reflexivity.
  - destruct (on_file env accept_all fld fname mime content st w)
      as [w1 [st1 | e1]] eqn:Eon; [apply IH |].
    assert (He1 : eclass e1 = MulterError).
    { revert Eon. unfold on_file, accept_all.
      destruct (negb (truthy (JStr fname))); [discriminate |]. cbv zeta.
      destruct (_ <=? 0)%nat; [intros [= _ <-]; reflexivity |].
      destruct (fileSizeLimit <=? _)%Z; [| discriminate].
      rewrite write_then_remove. intros [= _ <-]. reflexivity. }
    rewrite abort_upload. intros [= _ <-]. exact He1.
Qed.

Lemma multer_single_spec (env : Env) (filter : MulterFile -> FilterResult)
    (name : string) (ps : list Part) (w : World) :
  match multer_single env filter name ps w with
  | (w', inl fo) =>
      outbound w' = outbound w
      /\ (forall f, fo = Some f -> fieldname f = name)
  | (w', inr e) => outbound w' = outbound w
  end.
Proof.
  unfold multer_single, bind, ret.
  pose proof (read_parts_spec env name filter ps _ w (intake_inv_init name)) as H.
  destruct (read_parts env filter ps _ w) as [w' [st' | e]]; [| exact H].
  destruct H as [Hout [_ Hst]]. split; [exact Hout | exact Hst].
Qed.

Lemma multer_single_filter_irrelevant (env : Env) (ps : list Part) (w : World) :
  multer_single env fileFilter "audio" ps w
  = multer_single env accept_all "audio" ps w.
Proof.
  unfold multer_single, bind.
  rewrite read_parts_filter_irrelevant by apply intake_inv_init. reflexivity.
Qed.

(** C9.  A file under the field ['audio'] passes the filter whatever its
    declared type and its name; and since [upload.single('audio')] takes
    files under that field only, the filter decides nothing at the route:
    intake with the filter is intake with a filter that accepts every file,
    and an error of intake is never the filter's. *)
Theorem audio_field_always_accepted :
  (forall f, fieldname f = "audio" -> fileFilter f = Accept)
  /\ (forall env ps w,
        multer_single env fileFilter "audio" ps w
        = multer_single env accept_all "audio" ps w)
  /\ (forall env ps w w' e,
        multer_single env fileFilter "audio" ps w = (w', inr e) ->
        eclass e = MulterError /\ e <> only_audio_error).
Proof.
  split; [| split].
  - intros f Hf. apply fileFilter_accept_iff. right. left. exact Hf.
  - apply multer_single_filter_irrelevant.
  - intros env ps w w' e H. rewrite multer_single_filter_irrelevant in H.
    assert (Hc : eclass e = MulterError).
    { revert H. unfold multer_single, bind.
      destruct (read_parts env accept_all ps _ w) as [w1 [st1 | e1]] eqn:E;
        [discriminate |].
      intros [= _ <-]. eapply read_parts_error_class. exact E. }
    split; [exact Hc |]. intros ->. discriminate Hc.
Qed.

Lemma audio_field_always_accepted_witness :
  fileFilter {| fieldname := "audio"; originalname := "notes.txt";
                mimetype := "text/plain"; size := 0; path := "" |} = Accept.
Proof.
  destruct audio_field_always_accepted as [H _]. apply H. reflexivity.
Defined.

(** *** The tests of the filter, letter by letter *)

Lemma prefix_iff (p s : string) :
  String.prefix p s = true <-> exists rest, s = (p ++ rest)%string.
Proof.
  revert s. induction p as [| a p IH]; intros s.
  - split; [intros _; exists s; reflexivity |]. intros _. destruct s; reflexivity.
  - destruct s as [| b s]; cbn [String.prefix].
    + split; [discriminate | intros (rest & H); discriminate H].
    + destruct (ascii_dec a b) as [<- | N].
      * rewrite IH. split; intros (rest & H); exists rest.
        -- rewrite string_app_cons, H. reflexivity.
        -- rewrite string_app_cons in H. injection H as H. exact H.
      * split; [discriminate |]. intros (rest & H).
        rewrite string_app_cons in H. injection H as H1 H2. congruence.
Qed.

(** What folds onto a character: the character itself, and for a capital
    letter also its small form. *)
Lemma fold_unit_inv (c u : ascii) :
  fold_unit c = u ->
  c = u \/ ((65 <=? code u) && (code u <=? 90) = true /\ c = of_code (code u + 32)).
Proof.
  intros <-. destruct c as [[] [] [] [] [] [] [] []];
    first [left; reflexivity | right; split; reflexivity].
Qed.

Lemma fold_case_nil_inv (s : string) : fold_case s = "" -> s = "".
Proof. destruct s; [reflexivity | discriminate]. Qed.

Lemma fold_case_cons_inv (s : string) (u : ascii) (t : string) :
  fold_case s = String u t ->
  exists c s', s = String c s' /\ fold_unit c = u /\ fold_case s' = t.
Proof.
  destruct s as [| c s']; [discriminate |]. cbn [fold_case].
  intros [= H1 H2]. exists c, s'. auto.
Qed.

(** A suffix that folds onto a dot and three characters. *)
Lemma fold_case_dot3_inv (sfx : string) (u1 u2 u3 : ascii) :
  fold_case sfx = String "."%char (String u1 (String u2 (String u3 ""))) ->
  exists c1 c2 c3,
    sfx = String "."%char (String c1 (String c2 (String c3 "")))
    /\ fold_unit c1 = u1 /\ fold_unit c2 = u2 /\ fold_unit c3 = u3.
Proof.
  intros H.
  apply fold_case_cons_inv in H as (c0 & s0 & -> & H0 & H).
  apply fold_case_cons_inv in H as (c1 & s1 & -> & H1 & H).
  apply fold_case_cons_inv in H as (c2 & s2 & -> & H2 & H).
  apply fold_case_cons_inv in H as (c3 & s3 & -> & H3 & H).
  apply fold_case_nil_inv in H as ->.
  apply fold_unit_inv in H0 as [-> | [H0 _]]; [| discriminate H0].
  exists c1, c2, c3. auto.
Qed.

(** Reading the disjunction of [fold_unit_inv] at a given character. *)
Ltac unfold_letter H :=
  let Hr := fresh "Hr" in
  apply fold_unit_inv in H as [H | [Hr H]];
  [ | first [ solve [vm_compute in Hr; discriminate Hr] | vm_compute in H ] ];
  subst.

(** The folded form of a pattern, computed. *)
Ltac fold_pattern H :=
  match type of H with
  | _ = ?r => let r' := eval vm_compute in r in change r with r' in H
  end.

(** The test of the extension, spelled out: the name ends in a dot and
    three characters that are, each in either case, one of [mp3], [wav],
    [ogg], [m4a], [aac]. *)
Lemma matches_audio_extension_literal (name : string) :
  matches_audio_extension name = true
  <-> exists stem c1 c2 c3,
        name = (stem ++ String "." (String c1 (String c2 (String c3 ""))))%string
        /\ (   (In c1 ["m"; "M"] /\ In c2 ["p"; "P"] /\ c3 = "3")
            \/ (In c1 ["w"; "W"] /\ In c2 ["a"; "A"] /\ In c3 ["v"; "V"])
            \/ (In c1 ["o"; "O"] /\ In c2 ["g"; "G"] /\ In c3 ["g"; "G"])
            \/ (In c1 ["m"; "M"] /\ c2 = "4" /\ In c3 ["a"; "A"])
            \/ (In c1 ["a"; "A"] /\ In c2 ["a"; "A"] /\ In c3 ["c"; "C"]))%char.
Proof.
  rewrite matches_audio_extension_iff. split.
  - intros (stem & sfx & e & -> & Hin & Hf).
    cbn in Hin.
    destruct Hin as [<- | [<- | [<- | [<- | [<- | []]]]]];
      fold_pattern Hf;
      apply fold_case_dot3_inv in Hf as (c1 & c2 & c3 & -> & H1 & H2 & H3);
      exists stem, c1, c2, c3; (split; [reflexivity |]);
      unfold_letter H1; unfold_letter H2; unfold_letter H3;
      cbn; tauto.
  - intros (stem & c1 & c2 & c3 & -> & Hc).
    exists stem, (String "." (String c1 (String c2 (String c3 "")))).
    destruct Hc as [(H1 & H2 & H3) | [(H1 & H2 & H3) | [(H1 & H2 & H3)
                   | [(H1 & H2 & H3) | (H1 & H2 & H3)]]]].
    + exists "mp3". split; [reflexivity |]. split; [cbn; tauto |].
      cbn in H1, H2. destruct H1 as [<- | [<- | []]], H2 as [<- | [<- | []]];
        subst; reflexivity.
    + exists "wav". split; [reflexivity |]. split; [cbn; tauto |].
      cbn in H1, H2, H3.
      destruct H1 as [<- | [<- | []]], H2 as [<- | [<- | []]], H3 as [<- | [<- | []]];
        reflexivity.
    + exists "ogg". split; [reflexivity |]. split; [cbn; tauto |].
      cbn in H1, H2, H3.
      destruct H1 as [<- | [<- | []]], H2 as [<- | [<- | []]], H3 as [<- | [<- | []]];
        reflexivity.
    + exists "m4a". split; [reflexivity |]. split; [cbn; tauto |].
      cbn in H1, H3. destruct H1 as [<- | [<- | []]], H3 as [<- | [<- | []]];
        subst; reflexivity.
    + exists "aac". split; [reflexivity |]. split; [cbn; tauto |].
      cbn in H1, H2, H3.
      destruct H1 as [<- | [<- | []]], H2 as [<- | [<- | []]], H3 as [<- | [<- | []]];
        reflexivity.
Qed.

(** C7, as the code has it.  The filter accepts a file exactly when its
    declared type starts with [audio/], or its field is ['audio'], or its
    name ends, in any case, in one of [.mp3 .wav .ogg .m4a .aac].  A file it
    refuses is refused with the error 'Only audio files are allowed', which
    the error middleware answers with status 500.  Whatever intake hands to
    the handler has passed the filter, and a request refused at intake is
    answered by the error middleware without any outbound call. *)
Theorem fileFilter_accepts_iff :
  (forall f,
     fileFilter f = Accept
     <-> startsWith "audio/" (mimetype f) = true
         \/ fieldname f = "audio"
         \/ matches_audio_extension (originalname f) = true)
  /\ (forall declared,
        startsWith "audio/" declared = true
        <-> exists rest, declared = ("audio/" ++ rest)%string)
  /\ (forall name,
        matches_audio_extension name = true
        <-> exists stem c1 c2 c3,
              name = (stem ++ String "." (String c1 (String c2 (String c3 ""))))%string
              /\ (   (In c1 ["m"; "M"] /\ In c2 ["p"; "P"] /\ c3 = "3")
                  \/ (In c1 ["w"; "W"] /\ In c2 ["a"; "A"] /\ In c3 ["v"; "V"])
                  \/ (In c1 ["o"; "O"] /\ In c2 ["g"; "G"] /\ In c3 ["g"; "G"])
                  \/ (In c1 ["m"; "M"] /\ c2 = "4" /\ In c3 ["a"; "A"])
                  \/ (In c1 ["a"; "A"] /\ In c2 ["a"; "A"] /\ In c3 ["c"; "C"]))%char)
  /\ (forall f,
        fileFilter f <> Accept ->
        fileFilter f = Reject only_audio_error
        /\ errorMiddleware only_audio_error
           = {| status := 500;
                body := error_body "Internal server error"
                                   "Only audio files are allowed" |})
  /\ (forall env ps w w' f,
        multer_single env fileFilter "audio" ps w = (w', inl (Some f)) ->
        fileFilter f = Accept)
  /\ (forall env r w w' e,
        multer_single env fileFilter "audio" (parts r) w = (w', inr e) ->
        post_transcribe env r w = (w', errorMiddleware e)
        /\ outbound w' = outbound w).
Proof.
  split; [exact fileFilter_accept_iff |].
  split; [intros declared; apply prefix_iff |].
  split; [exact matches_audio_extension_literal |].
  split; [| split].
  - intros f H. split; [apply fileFilter_reject; exact H | reflexivity].
  - intros env ps w w' f H.
    pose proof (multer_single_spec env fileFilter "audio" ps w) as Hs.
    rewrite H in Hs. destruct Hs as [_ Hf].
    apply fileFilter_accept_iff. right. left. apply Hf. reflexivity.
  - intros env r w w' e H.
    pose proof (multer_single_spec env fileFilter "audio" (parts r) w) as Hs.
    rewrite H in Hs. split; [| exact Hs].
    unfold post_transcribe. rewrite H. reflexivity.
Qed.

Lemma fileFilter_accepts_iff_witness :
  fileFilter {| fieldname := "document"; originalname := "Take 7.WaV";
                mimetype := "text/plain"; size := 0; path := "" |} = Accept
  /\ fileFilter Sample.notes = Reject only_audio_error.
Proof.
  destruct fileFilter_accepts_iff as (Hacc & _ & Hext & Hrej & _).
  split.
  - apply Hacc. right. right. apply Hext.
    exists "Take 7", "W"%char, "a"%char, "V"%char.
    split; [reflexivity |]. right. left. simpl. tauto.
  - apply (Hrej Sample.notes). discriminate.
Defined.

(** A refused upload is not answered with a 4xx status: the filter's error,
    and multer's error for a file under another field, both reach the
    error middleware, which answers 500; and a file with an audio type
    under another field is refused all the same. *)
Lemma refused_upload_is_answered_500 :
  fileFilter Sample.notes = Reject only_audio_error
  /\ client_error (errorMiddleware only_audio_error) = false
  /\ snd (post_transcribe (Sample.env_of (Some "hf_token") (Resolved Sample.transcript))
            Sample.notes_upload Sample.empty_world)
     = {| status := 500;
          body := error_body "Internal server error" "Unexpected field" |}
  /\ snd (post_transcribe (Sample.env_of (Some "hf_token") (Resolved Sample.transcript))
            {| parts := [FilePart "file" "memo.wav" "audio/wav" "RIFF"];
               model := None |}
            Sample.empty_world)
     = {| status := 500;
          body := error_body "Internal server error" "Unexpected field" |}.
Proof. repeat split. Qed.

Lemma listModels_complete_witness :
  own_lookup HF_MODELS "whisper-large-turbo"
  = Some (JStr "openai/whisper-large-v3-turbo").
Proof.
  destruct listModels_complete as (_ & _ & _ & _ & H).
  apply (H {| key := "whisper-large-turbo";
              name := JStr "openai/whisper-large-v3-turbo";
              description :=
                JStr "Best accuracy, faster and cheaper (newest, 1.5GB)" |}).
  right. left.
Defined.

(** * Further properties *)

(** ** Intake, part by part *)

(** A file part without a file name is passed over. *)
Lemma on_file_skipped (env : Env) (filter : MulterFile -> FilterResult)
    (fld fname mime content : string) (st : Intake) (w : World) :
  truthy (JStr fname) = false ->
  on_file env filter fld fname mime content st w = (w, inl st).
Proof. intros H. unfold on_file. rewrite H. reflexivity. Qed.



Lemma uploads_idem (ps : list Part) : uploads (uploads ps) = uploads ps.
Proof.
  unfold uploads. induction ps as [| p ps IH]; [reflexivity |].
  cbn [List.filter]. destruct (carries_file p) eqn:E; [| exact IH].
  cbn [List.filter]. rewrite E, IH. reflexivity.
Qed.


Section FirstUpload.

Variable env : Env.
Variable w : World.

(** The first file under another field than ['audio']. *)
Lemma on_file_other_field (fld fname mime content : string) :
  truthy (JStr fname) = true -> fld <> "audio" ->
  on_file env fileFilter fld fname mime content intake_start w
  = (w, inr (multer_error "LIMIT_UNEXPECTED_FILE" "Unexpected field")).
Proof.
  intros Hn Hf. unfold on_file. rewrite Hn. cbn [negb]. cbv zeta.
  unfold intake_start. cbn [filesLeft]. rewrite lookup_singleton_ne by congruence.
  reflexivity.
Qed.

(** The first file under ['audio'], of the limit's length or longer: its
    first [fileSizeLimit] code units are written, the file is removed
    again unless the removal is refused, and the upload is aborted. *)
Lemma on_file_too_large (fname mime content : string) :
  truthy (JStr fname) = true ->
  (fileSizeLimit <= Z.of_nat (String.length content))%Z ->
  on_file env fileFilter "audio" fname mime content intake_start w
  = (if decide (temp_path env ∈ pinned w)
     then set_fs w (<[temp_path env := take_units content fileSizeLimit]> (fs w))
     else set_fs w (delete (temp_path env) (fs w)),
     inr (multer_error "LIMIT_FILE_SIZE" "File too large")).
Proof.
  intros Hn Hl. unfold on_file. rewrite Hn. cbn [negb]. cbv zeta.
  unfold intake_start. cbn [filesLeft]. rewrite lookup_singleton_eq. cbn [default Nat.leb].
  replace (fileFilter _) with Accept
    by (symmetry; apply fileFilter_accept_iff; right; left; reflexivity).
  apply Z.leb_le in Hl. rewrite Hl. apply write_then_remove.
Qed.

(** The first file under ['audio'], shorter than the limit: it is stored,
    and no field may take a file any more. *)
Lemma on_file_stored (fname mime content : string) :
  truthy (JStr fname) = true ->
  (Z.of_nat (String.length content) < fileSizeLimit)%Z ->
  on_file env fileFilter "audio" fname mime content intake_start w
  = (set_fs w (<[temp_path env := content]> (fs w)),
     inl (intake_full (stored_file env fname mime content))).
Proof.
  intros Hn Hl. unfold on_file. rewrite Hn. cbn [negb]. cbv zeta.
  unfold intake_start. cbn [filesLeft]. rewrite lookup_singleton_eq. cbn [default Nat.leb].
  replace (fileFilter _) with Accept
    by (symmetry; apply fileFilter_accept_iff; right; left; reflexivity).
  assert (Hl' : (fileSizeLimit <=? Z.of_nat (String.length content))%Z = false)
    by (apply Z.leb_gt; exact Hl).
  rewrite Hl'. reflexivity.
Qed.

(** Any file after a stored one is unexpected, whatever its field. *)
Lemma on_file_after_stored (f : MulterFile) (fld fname mime content : string)
    (w1 : World) :
  truthy (JStr fname) = true ->
  on_file env fileFilter fld fname mime content (intake_full f) w1
  = (w1, inr (multer_error "LIMIT_UNEXPECTED_FILE" "Unexpected field")).
Proof.
  intros Hn. unfold on_file. rewrite Hn. cbn [negb]. cbv zeta.
  unfold intake_full. cbn [filesLeft].
  destruct (decide (fld = "audio")) as [-> | N].
  - rewrite lookup_insert_eq. reflexivity.
  - rewrite lookup_insert_ne, lookup_singleton_ne by congruence. reflexivity.
Qed.

End FirstUpload.

(** What the abort after a stored upload leaves: the upload is removed
    again unless its removal is refused. *)
Lemma remove_stored_upload (env : Env) (fname mime content : string) (w : World) :
  fst (remove_uploaded (intake_full (stored_file env fname mime content))
         (set_fs w (<[temp_path env := content]> (fs w))))
  = if decide (temp_path env ∈ pinned w)
    then set_fs w (<[temp_path env := content]> (fs w))
    else set_fs w (delete (temp_path env) (fs w)).
Proof.
  unfold remove_uploaded, intake_full, stored_file. cbn [stored path].
  unfold try_catch, unlinkSync, ret, set_fs. cbn [fs pinned outbound].
  rewrite lookup_insert_eq.
  destruct (decide (temp_path env ∈ pinned w)); cbn [fst]; [reflexivity |].
  rewrite delete_insert_eq. reflexivity.
Qed.

(** After the upload is stored, the rest of the body either changes
    nothing or aborts the upload. *)
Lemma read_parts_after_stored (env : Env) (f : MulterFile) (ps : list Part) :
  forall w1,
  match read_parts env fileFilter ps (intake_full f) w1 with
  | (w', inl st') => w' = w1 /\ st' = intake_full f
  | (w', inr e) =>
      w' = fst (remove_uploaded (intake_full f) w1) /\ eclass e = MulterError
  end.
Proof.
  induction ps as [| p ps IH]; intros w1; [split; reflexivity |].
  destruct p as [fld v | fld fname mime content]; cbn [read_parts];
    unfold bind at 1; unfold try_catch.
  - destruct (on_field_cases fld v (intake_full f) w1) as [E | E]; rewrite E.
    + apply IH.
    + rewrite abort_upload. split; reflexivity.
  - destruct (truthy (JStr fname)) eqn:Hn.
    + rewrite (on_file_after_stored env f fld fname mime content w1 Hn).
      rewrite abort_upload. split; reflexivity.
    + rewrite (on_file_skipped env fileFilter fld fname mime content _ w1 Hn).
      apply IH.
Qed.

(** Intake of any body, from its start: nothing happens; or the one upload
    is stored; or the upload is aborted with one of multer's errors, and
    the temporary file, if one was written, is removed again unless the
    removal is refused. *)
Lemma read_parts_from_start (env : Env) (ps : list Part) (w : World) :
  match read_parts env fileFilter ps intake_start w with
  | (w', inl st') =>
      (st' = intake_start /\ w' = w)
      \/ (exists fname mime content,
            In (FilePart "audio" fname mime content) ps
            /\ fname <> ""
            /\ (Z.of_nat (String.length content) < fileSizeLimit)%Z
            /\ st' = intake_full (stored_file env fname mime content)
            /\ w' = set_fs w (<[temp_path env := content]> (fs w)))
  | (w', inr e) =>
      eclass e = MulterError
      /\ (w' = w
          \/ exists content,
               w' = if decide (temp_path env ∈ pinned w)
                    then set_fs w (<[temp_path env := content]> (fs w))
                    else set_fs w (delete (temp_path env) (fs w)))
  end.
Proof.
  induction ps as [| p ps IH]; [left; split; reflexivity |].
  destruct p as [fld v | fld fname mime content]; cbn [read_parts];
    unfold bind at 1; unfold try_catch.
  - destruct (on_field_cases fld v intake_start w) as [E | E]; rewrite E.
    + destruct (read_parts env fileFilter ps intake_start w) as [w' [st' | e]];
        [| exact IH].
      destruct IH as [IH | (fname & mime & content & Hin & IH)];
        [left; exact IH |].
      right. exists fname, mime, content. split; [right; exact Hin | exact IH].
    + rewrite abort_upload. split; [reflexivity | left; reflexivity].
  - destruct (truthy (JStr fname)) eqn:Hn.
    2: { rewrite (on_file_skipped env fileFilter fld fname mime content _ w Hn).
         destruct (read_parts env fileFilter ps intake_start w) as [w' [st' | e]];
           [| exact IH].
         destruct IH as [IH | (fname' & mime' & content' & Hin & IH)];
           [left; exact IH |].
         right. exists fname', mime', content'.
         split; [right; exact Hin | exact IH]. }
    destruct (decide (fld = "audio")) as [-> | Hfld].
    2: { rewrite (on_file_other_field env w fld fname mime content Hn Hfld).
         rewrite abort_upload. split; [reflexivity | left; reflexivity]. }
    destruct (Z_lt_le_dec (Z.of_nat (String.length content)) fileSizeLimit)
      as [Hl | Hl].
    + rewrite (on_file_stored env w fname mime content Hn Hl).
      pose proof (read_parts_after_stored env
                    (stored_file env fname mime content) ps
                    (set_fs w (<[temp_path env := content]> (fs w)))) as Hafter.
      cbv beta iota.
      destruct (read_parts env fileFilter ps
                  (intake_full (stored_file env fname mime content))
                  (set_fs w (<[temp_path env := content]> (fs w))))
        as [w' [st' | e]].
      * destruct Hafter as [-> ->]. right. exists fname, mime, content.
        split; [left; reflexivity |].
        split; [intros ->; discriminate Hn |]. auto.
      * destruct Hafter as [-> He]. split; [exact He |].
        right. exists content. apply remove_stored_upload.
    + rewrite (on_file_too_large env w fname mime content Hn Hl).
      rewrite abort_upload. split; [reflexivity |].
      right. exists (take_units content fileSizeLimit).
      destruct (decide (temp_path env ∈ pinned w)); reflexivity.
Qed.

Lemma multer_single_unfold (env : Env) (ps : list Part) (w : World) :
  multer_single env fileFilter "audio" ps w
  = match read_parts env fileFilter ps intake_start w with
    | (w', inl st) => (w', inl (stored st))
    | (w', inr e) => (w', inr e)
    end.
Proof. reflexivity. Qed.

(** Intake of any body: what [req.file] is, and what the world is then. *)
Lemma multer_single_outcomes (env : Env) (ps : list Part) (w : World) :
  match multer_single env fileFilter "audio" ps w with
  | (w', inl None) => w' = w
  | (w', inl (Some f)) =>
      exists fname mime content,
        In (FilePart "audio" fname mime content) ps
        /\ fname <> ""
        /\ (Z.of_nat (String.length content) < fileSizeLimit)%Z
        /\ f = stored_file env fname mime content
        /\ w' = set_fs w (<[temp_path env := content]> (fs w))
  | (w', inr e) =>
      eclass e = MulterError
      /\ (w' = w
          \/ exists content,
               w' = if decide (temp_path env ∈ pinned w)
                    then set_fs w (<[temp_path env := content]> (fs w))
                    else set_fs w (delete (temp_path env) (fs w)))
  end.
Proof.
  rewrite multer_single_unfold.
  pose proof (read_parts_from_start env ps w) as H.
  destruct (read_parts env fileFilter ps intake_start w) as [w' [st' | e]];
    [| exact H].
  destruct H as [[-> ->] | (fname & mime & content & Hin & Hne & Hl & -> & ->)].
  - reflexivity.
  - exists fname, mime, content. auto.
Qed.



(** ** The handler as a whole *)


(** The statuses of the [catch] block. *)
Lemma error_response_status (e : JsError) :
  In (status (error_response e)) [408; 429; 500; 503].
Proof.
  unfold error_response.
  destruct (response e) as [[st d] |].
  - destruct (st =? 401)%Z; [cbn; tauto |].
    destruct (st =? 429)%Z; [cbn; tauto |].
    destruct (st =? 503)%Z; cbn; tauto.
  - destruct (ecode e) as [c |]; [| cbn; tauto].
    destruct (c =? "ECONNABORTED")%string; cbn; tauto.
Qed.

Lemma errorMiddleware_status (e : JsError) :
  In (status (errorMiddleware e)) [413; 500].
Proof.
  unfold errorMiddleware.
  destruct (eclass e); try (cbn; tauto).
  destruct (ecode e) as [c |]; [| cbn; tauto].
  destruct (c =? "LIMIT_FILE_SIZE")%string; cbn; tauto.
Qed.

(** The four ways through the handler. *)
Lemma transcribe_cases (env : Env) (req : Request) (w : World) :
  (file req = None /\ transcribe env req w = (w, no_file_response))
  \/ (exists f, file req = Some f /\ configured env = false
        /\ transcribe env req w = (w, configuration_error_response))
  \/ (exists f content d,
        file req = Some f /\ configured env = true
        /\ fs w !! path f = Some content
        /\ upstream env (outbound_call env f (query_model req) content) = Resolved d
        /\ (path f ∉ pinned w)
        /\ transcribe env req w
           = (set_fs (log_call w (outbound_call env f (query_model req) content))
                     (delete (path f) (fs w)),
              success_response env f (query_model req) d))
  \/ (exists f e w1,
        file req = Some f /\ configured env = true
        /\ try_block env f (query_model req) w = (w1, inr e)
        /\ (w1 = w
            \/ exists content,
                 fs w !! path f = Some content
                 /\ w1 = log_call w (outbound_call env f (query_model req) content))
        /\ transcribe env req w = catch_block f e w1).
Proof.
  destruct (file req) as [f |] eqn:Hfile; [| left; split; [reflexivity |]].
  2: { unfold transcribe. rewrite Hfile. reflexivity. }
  right. destruct (configured env) eqn:Hc.
  2: { left. exists f. repeat split.
       apply (transcribe_unconfigured env req f Hfile w Hc). }
  right. rewrite (transcribe_configured env req f Hfile w Hc).
  destruct (fs w !! path f) as [content |] eqn:Hread.
  - destruct (upstream env (outbound_call env f (query_model req) content))
      as [d | e] eqn:Hup.
    + pose proof (try_block_resolved env req f w content d Hread Hup) as Ht.
      cbv zeta in Ht.
      destruct (decide (path f ∈ pinned w)) as [Hp | Hp].
      * right. exists f, (eperm "unlink" (path f)),
          (log_call w (outbound_call env f (query_model req) content)).
        split; [reflexivity |]. split; [reflexivity |]. split; [exact Ht |].
        split; [right; exists content; split; [exact Hread | reflexivity] |].
        rewrite Ht. reflexivity.
      * left. exists f, content, d.
        split; [reflexivity |]. split; [reflexivity |]. split; [exact Hread |].
        split; [exact Hup |]. split; [exact Hp |]. rewrite Ht. reflexivity.
    + pose proof (try_block_rejected env req f w content e Hread Hup) as Ht.
      right. exists f, e, (log_call w (outbound_call env f (query_model req) content)).
      split; [reflexivity |]. split; [reflexivity |]. split; [exact Ht |].
      split; [right; exists content; split; [exact Hread | reflexivity] |].
      rewrite Ht. reflexivity.
  - pose proof (try_block_read_failure env req f w Hread) as Ht.
    right. exists f, (enoent "open" (path f)), w.
    split; [reflexivity |]. split; [reflexivity |]. split; [exact Ht |].
    split; [left; reflexivity |]. rewrite Ht. reflexivity.
Qed.

(** A world whose call log has grown is not the world before. *)
Ltac log_grew Hw :=
  apply (f_equal outbound) in Hw;
  cbn [set_fs log_call outbound] in Hw;
  apply (f_equal (@List.length _)) in Hw;
  rewrite length_app in Hw; cbn in Hw; lia.

(** What the handler does to the world: it never changes which paths
    refuse removal, it appends to the call log the one call it makes, when
    it makes one, and it leaves every file but the upload alone. *)
Lemma transcribe_world (env : Env) (req : Request) (w : World) :
  let w' := fst (transcribe env req w) in
  pinned w' = pinned w
  /\ outbound w'
     = (outbound w ++
        match file req with
        | Some f =>
            if configured env then
              match fs w !! path f with
              | Some content => [outbound_call env f (query_model req) content]
              | None => []
              end
            else []
        | None => []
        end)%list
  /\ (forall p, (forall f, file req = Some f -> p <> path f) ->
        fs w' !! p = fs w !! p).
Proof.
  cbv zeta.
  destruct (transcribe_cases env req w)
    as [(Hfile & E) | [(f & Hfile & Hc & E) | [(f & content & d & Hfile & Hc & Hread & Hup & Hp & E)
       | (f & e & w1 & Hfile & Hc & Ht & Hw1 & E)]]];
    rewrite E, Hfile; clear E.
  - cbn [fst]. rewrite app_nil_r. auto.
  - rewrite Hc. cbn [fst]. rewrite app_nil_r. auto.
  - rewrite Hc, Hread. cbn [fst set_fs log_call pinned outbound fs].
    split; [reflexivity |]. split; [reflexivity |].
    intros p Hne. apply lookup_delete_ne. specialize (Hne f eq_refl). congruence.
  - rewrite Hc.
    destruct (catch_block_world f e w1) as (Hout & Hpin & _ & Hfs).
    rewrite Hout, Hpin.
    destruct Hw1 as [-> | (content & Hread & ->)].
    + assert (Hread : fs w !! path f = None).
      { revert Ht. unfold try_block, bind, readFileSync.
        destruct (fs w !! path f) as [c |] eqn:Hr; [| reflexivity].
        unfold axios_post. destruct (upstream env _) as [d | e'].
        - unfold unlinkSync, ret. cbn [log_call fs pinned]. rewrite Hr.
          destruct (decide (path f ∈ pinned w)); intros [= Hw _]; log_grew Hw.
        - intros [= Hw _]. log_grew Hw. }
      rewrite Hread, app_nil_r. split; [reflexivity |]. split; [reflexivity |].
      intros p Hne. apply Hfs. exact (Hne f eq_refl).
    + rewrite Hread. cbn [log_call pinned outbound].
      split; [reflexivity |]. split; [reflexivity |].
      intros p Hne. rewrite Hfs by exact (Hne f eq_refl). reflexivity.
Qed.

(** X1.  The handler answers 200 in one case only: a file is there, a
    token is configured, the upload can be read, the upstream answers, and
    the upload can be removed.  In that case the upload is removed, the one
    call is logged, and the answer is the 200 with the upstream's data and
    the metadata of the file. *)
Theorem transcribe_success_iff (env : Env) (req : Request) (w : World) :
  (status (snd (transcribe env req w)) = 200
   <-> exists f content d,
         file req = Some f /\ configured env = true
         /\ fs w !! path f = Some content
         /\ upstream env (outbound_call env f (query_model req) content) = Resolved d
         /\ (path f ∉ pinned w))
  /\ (forall f content d,
        file req = Some f -> configured env = true ->
        fs w !! path f = Some content ->
        upstream env (outbound_call env f (query_model req) content) = Resolved d ->
        path f ∉ pinned w ->
        transcribe env req w
        = ({| fs := delete (path f) (fs w);
              pinned := pinned w;
              outbound :=
                outbound w ++
                [ {| url := "https://api-inference.huggingface.co/models/"
                            ++ to_string (modelName (query_model req));
                     data := content;
                     authorization :=
                       "Bearer " ++ to_string (of_opt (HF_API_TOKEN env));
                     content_type := getAudioMimeType f;
                     accept := "application/json";
                     maxBodyLength := 100 * 1024 * 1024;
                     timeout := 60000 |} ] |},
           {| status := 200;
              body := JObj
                [ ("success", JBool true);
                  ("transcription", d);
                  ("metadata", JObj
                     [ ("model", modelName (query_model req));
                       ("originalFilename", JStr (originalname f));
                       ("fileSize", JNum (size f));
                       ("mimetype", JStr (mimetype f));
                       ("processedAt", JStr (now env)) ]) ] |})).
Proof.
  split; [split |].
  - intros Hst.
    destruct (transcribe_cases env req w)
      as [(Hfile & E) | [(f & Hfile & Hc & E) | [(f & content & d & Hfile & Hc & Hread & Hup & Hp & E)
         | (f & e & w1 & Hfile & Hc & Ht & Hw1 & E)]]];
      rewrite E in Hst.
    + discriminate Hst.
    + discriminate Hst.
    + exists f, content, d. auto.
    + rewrite catch_block_response in Hst.
      pose proof (error_response_status e) as Hin. rewrite Hst in Hin.
      cbn in Hin. intuition discriminate.
  - intros (f & content & d & Hfile & Hc & Hread & Hup & Hp).
    rewrite (transcribe_configured env req f Hfile w Hc).
    pose proof (try_block_resolved env req f w content d Hread Hup) as Ht.
    cbv zeta in Ht. rewrite Ht.
    destruct (decide (path f ∈ pinned w)); [contradiction | reflexivity].
  - intros f content d Hfile Hc Hread Hup Hp.
    rewrite (transcribe_configured env req f Hfile w Hc).
    pose proof (try_block_resolved env req f w content d Hread Hup) as Ht.
    cbv zeta in Ht. rewrite Ht.
    destruct (decide (path f ∈ pinned w)); [contradiction | reflexivity].
Qed.

(** X2.  The handler calls the upstream at most once, and exactly when a
    file is there, a token is configured and the upload can be read. *)
Theorem transcribe_calls_upstream_once (env : Env) (req : Request) (w : World) :
  outbound (fst (transcribe env req w))
  = (outbound w ++
     match file req with
     | Some f =>
         if configured env then
           match fs w !! path f with
           | Some content => [outbound_call env f (query_model req) content]
           | None => []
           end
         else []
     | None => []
     end)%list.
Proof. apply transcribe_world. Qed.

(** X3.  The handler touches no file but the upload, and never changes
    which paths refuse removal. *)
Theorem transcribe_touches_only_upload (env : Env) (req : Request) (w : World) :
  pinned (fst (transcribe env req w)) = pinned w
  /\ (file req = None -> fs (fst (transcribe env req w)) = fs w)
  /\ (forall f p, file req = Some f -> p <> path f ->
        fs (fst (transcribe env req w)) !! p = fs w !! p).
Proof.
  destruct (transcribe_world env req w) as (Hpin & _ & Hfs).
  split; [exact Hpin |]. split.
  - intros Hnone. apply map_eq. intros p. apply Hfs.
    intros f Hf. congruence.
  - intros f p Hf Hne. apply Hfs. intros f' Hf'. congruence.
Qed.

(** ** The route as a whole *)


(** The route on any body: no file and the handler's 400; or an upload
    aborted and the error middleware; or the one upload stored and the
    handler run on it. *)
Lemma post_transcribe_cases (env : Env) (r : HttpRequest) (w : World) :
  post_transcribe env r w = (w, no_file_response)
  \/ (exists e w',
        eclass e = MulterError
        /\ post_transcribe env r w = (w', errorMiddleware e)
        /\ (w' = w
            \/ exists content,
                 w' = if decide (temp_path env ∈ pinned w)
                      then set_fs w (<[temp_path env := content]> (fs w))
                      else set_fs w (delete (temp_path env) (fs w))))
  \/ (exists fname mime content,
        In (FilePart "audio" fname mime content) (parts r)
        /\ post_transcribe env r w
           = transcribe env
               {| file := Some (stored_file env fname mime content);
                  query_model := model r |}
               (set_fs w (<[temp_path env := content]> (fs w)))).
Proof.
  unfold post_transcribe.
  pose proof (multer_single_outcomes env (parts r) w) as H.
  destruct (multer_single env fileFilter "audio" (parts r) w) as [w' [[f |] | e]].
  - right. right.
    destruct H as (fname & mime & content & Hin & _ & _ & -> & ->).
    exists fname, mime, content. split; [exact Hin | reflexivity].
  - left. subst w'. reflexivity.
  - right. left. exists e, w'. destruct H as [He Hw]. auto.
Qed.





(** What the route does to the world, whatever the request. *)
Lemma post_transcribe_world (env : Env) (r : HttpRequest) (w : World) :
  let w' := fst (post_transcribe env r w) in
  pinned w' = pinned w
  /\ (forall p, p <> temp_path env -> fs w' !! p = fs w !! p)
  /\ (exists calls,
        outbound w' = (outbound w ++ calls)%list
        /\ (List.length calls <= 1)%nat
        /\ forall c, In c calls ->
             configured env = true
             /\ exists fname mime content,
                  In (FilePart "audio" fname mime content) (parts r)
                  /\ c = outbound_call env (stored_file env fname mime content)
                           (model r) content).
Proof.
  cbv zeta.
  destruct (post_transcribe_cases env r w)
    as [E | [(e & w' & He & E & Hw) | (fname & mime & content & Hin & E)]];
    rewrite E.
  - cbn [fst]. split; [reflexivity |]. split; [reflexivity |].
    exists []. rewrite app_nil_r. split; [reflexivity |]. split; [cbn; lia |].
    intros c [].
  - cbn [fst]. destruct Hw as [-> | (content & ->)].
    + split; [reflexivity |]. split; [reflexivity |].
      exists []. rewrite app_nil_r. split; [reflexivity |]. split; [cbn; lia |].
      intros c [].
    + split; [destruct (decide _); reflexivity |]. split.
      * intros p Hne. destruct (decide _); cbn [set_fs fs].
        -- apply lookup_insert_ne. congruence.
        -- apply lookup_delete_ne. congruence.
      * exists []. rewrite app_nil_r.
        split; [destruct (decide _); reflexivity |]. split; [cbn; lia |].
        intros c [].
  - set (f := stored_file env fname mime content).
    set (req := {| file := Some f; query_model := model r |}).
    set (w1 := set_fs w (<[temp_path env := content]> (fs w))).
    destruct (transcribe_world env req w1) as (Hpin & Hout & Hfs).
    split; [rewrite Hpin; reflexivity |]. split.
    + intros p Hne. rewrite Hfs.
      * unfold w1. cbn [set_fs fs]. apply lookup_insert_ne. congruence.
      * intros f' [= <-]. exact Hne.
    + rewrite Hout. cbn [req file query_model].
      assert (Hread : fs w1 !! path f = Some content) by apply lookup_insert_eq.
      rewrite Hread.
      destruct (configured env) eqn:Hc.
      * eexists. split; [reflexivity |]. split; [cbn; lia |].
        intros c [<- | []]. split; [reflexivity |].
        exists fname, mime, content. split; [exact Hin | reflexivity].
      * exists []. split; [reflexivity |]. split; [cbn; lia |]. intros c [].
Qed.

(** X8.  Whatever the request, the route leaves every file but its own
    temporary one as it was, and never changes which paths refuse
    removal. *)
Theorem post_transcribe_touches_only_temp_path
    (env : Env) (r : HttpRequest) (w : World) :
  pinned (fst (post_transcribe env r w)) = pinned w
  /\ forall p, p <> temp_path env ->
       fs (fst (post_transcribe env r w)) !! p = fs w !! p.
Proof.
  destruct (post_transcribe_world env r w) as (H1 & H2 & _). split; assumption.
Qed.

(** X9.  Whatever the request, the route calls the upstream at most once,
    and a call it makes carries the bytes of a part of the body under
    ['audio'], with the configured token as bearer, for 60 seconds at
    most. *)
Theorem post_transcribe_calls_upstream_at_most_once
    (env : Env) (r : HttpRequest) (w : World) :
  exists calls,
    outbound (fst (post_transcribe env r w)) = (outbound w ++ calls)%list
    /\ (List.length calls <= 1)%nat
    /\ forall c, In c calls ->
         configured env = true
         /\ authorization c = ("Bearer " ++ to_string (of_opt (HF_API_TOKEN env)))%string
         /\ accept c = "application/json"
         /\ timeout c = 60000
         /\ exists fname mime content,
              In (FilePart "audio" fname mime content) (parts r)
              /\ data c = content
              /\ content_type c
                 = getAudioMimeType (stored_file env fname mime content).
Proof.
  destruct (post_transcribe_world env r w) as (_ & _ & calls & Hout & Hlen & Hc).
  exists calls. split; [exact Hout |]. split; [exact Hlen |].
  intros c Hin. destruct (Hc c Hin) as (Hconf & fname & mime & content & Hpart & ->).
  split; [exact Hconf |]. repeat split.
  exists fname, mime, content. repeat split. exact Hpart.
Qed.

(** X10.  Without a token nothing is ever sent upstream, and the answer is
    400, 413 or 500. *)
Theorem no_token_no_call (env : Env) (r : HttpRequest) (w : World) :
  configured env = false ->
  outbound (fst (post_transcribe env r w)) = outbound w
  /\ In (status (snd (post_transcribe env r w))) [400; 413; 500].
Proof.
  intros Hc. split.
  - destruct (post_transcribe_world env r w) as (_ & _ & calls & Hout & _ & Hcalls).
    destruct calls as [| c calls]; [rewrite Hout; apply app_nil_r |].
    destruct (Hcalls c (or_introl eq_refl)) as [Hconf _]. congruence.
  - destruct (post_transcribe_cases env r w)
      as [E | [(e & w' & He & E & Hw) | (fname & mime & content & Hin & E)]];
      rewrite E.
    + cbn; tauto.
    + cbn [snd]. pose proof (errorMiddleware_status e) as Hst.
      cbn in Hst |- *. tauto.
    + rewrite (transcribe_unconfigured env
                 {| file := Some (stored_file env fname mime content);
                    query_model := model r |}
                 (stored_file env fname mime content) eq_refl _ Hc).
      cbn; tauto.
Qed.

(** X11.  A configured server leaves no upload behind.  When the temporary
    path is free before the request and its removal is not refused, the
    files after the request are the files before it, whatever the request
    and whatever the upstream does. *)
Theorem post_transcribe_restores_fs (env : Env) (r : HttpRequest) (w : World) :
  configured env = true ->
  temp_path env ∉ pinned w ->
  fs w !! temp_path env = None ->
  fs (fst (post_transcribe env r w)) = fs w.
Proof.
  intros Hc Hpin Hfresh. apply map_eq. intros p.
  destruct (decide (p = temp_path env)) as [-> | Hne];
    [| apply post_transcribe_world; exact Hne].
  rewrite Hfresh.
  destruct (post_transcribe_cases env r w)
    as [E | [(e & w' & He & E & Hw) | (fname & mime & content & Hin & E)]];
    rewrite E; cbn [fst].
  - exact Hfresh.
  - destruct Hw as [-> | (content & ->)]; [exact Hfresh |].
    destruct (decide (temp_path env ∈ pinned w)); [contradiction |].
    cbn [set_fs fs]. apply lookup_delete_eq.
  - apply (transcribe_removes_temp_file env
             {| file := Some (stored_file env fname mime content);
                query_model := model r |}
             (stored_file env fname mime content));
      [reflexivity | exact Hc | exact Hpin].
Qed.

(** The answers the route can give. *)
Lemma post_transcribe_answers (env : Env) (r : HttpRequest) (w : World) :
  let a := snd (post_transcribe env r w) in
  a = no_file_response
  \/ (exists e, a = errorMiddleware e)
  \/ a = configuration_error_response
  \/ (exists f d, a = success_response env f (model r) d)
  \/ (exists e, a = error_response e).
Proof.
  cbv zeta.
  destruct (post_transcribe_cases env r w)
    as [E | [(e & w' & He & E & Hw) | (fname & mime & content & Hin & E)]];
    rewrite E; cbn [snd]; [auto | right; left; exists e; reflexivity |].
  set (req := {| file := _; query_model := _ |}).
  set (w1 := set_fs _ _).
  destruct (transcribe_cases env req w1)
    as [(Hfile & E') | [(f & Hfile & Hc & E') | [(f & content' & d & Hfile & Hc & Hread & Hres & Hp & E')
       | (f & e & w2 & Hfile & Hc & Ht & Hw2 & E')]]]; rewrite E'; cbn [snd].
  - auto.
  - auto.
  - right. right. right. left. exists f, d. reflexivity.
  - right. right. right. right. exists e. apply catch_block_response.
Qed.

(** X12.  The statuses of the route are 200, 400, 408, 413, 429, 500 and
    503, and no other: in particular an upstream 401 never comes back as
    401. *)
Theorem post_transcribe_status_range (env : Env) (r : HttpRequest) (w : World) :
  In (status (snd (post_transcribe env r w))) [200; 400; 408; 413; 429; 500; 503].
Proof.
  destruct (post_transcribe_answers env r w)
    as [E | [(e & E) | [E | [(f & d & E) | (e & E)]]]]; rewrite E;
    try (cbn; tauto).
  - pose proof (errorMiddleware_status e) as Hin. cbn in Hin |- *. tauto.
  - pose proof (error_response_status e) as Hin. cbn in Hin |- *. tauto.
Qed.

(** The answers of the [catch] block: a non-empty label, details, and a
    retry hint on 503 only. *)
Lemma error_response_shape (e : JsError) :
  let a := error_response e in
  (exists label, body_field a "error" = Some (JStr label) /\ label <> "")
  /\ is_Some (body_field a "details")
  /\ body_field a "success" = None
  /\ (forall v, body_field a "retryAfter" = Some v -> status a = 503 /\ v = JNum 20).
Proof.
  cbv zeta. unfold error_response.
  destruct (response e) as [[st d] |].
  - destruct (st =? 401)%Z;
      [split; [eexists; split; [reflexivity | discriminate] |];
       split; [eexists; reflexivity |]; split; [reflexivity | discriminate] |].
    destruct (st =? 429)%Z;
      [split; [eexists; split; [reflexivity | discriminate] |];
       split; [eexists; reflexivity |]; split; [reflexivity | discriminate] |].
    destruct (st =? 503)%Z.
    + split; [eexists; split; [reflexivity | discriminate] |].
      split; [eexists; reflexivity |]. split; [reflexivity |].
      intros v [= <-]. split; reflexivity.
    + split; [eexists; split; [reflexivity | discriminate] |].
      split; [eexists; reflexivity |]. split; [reflexivity | discriminate].
  - destruct (ecode e) as [c |];
      [destruct (c =? "ECONNABORTED")%string |];
      (split; [eexists; split; [reflexivity | discriminate] |];
       split; [eexists; reflexivity |]; split; [reflexivity | discriminate]).
Qed.

(** The answers of the error middleware: a non-empty label, details, and
    neither a success mark nor a retry hint. *)
Lemma errorMiddleware_shape (e : JsError) :
  let a := errorMiddleware e in
  (exists label, body_field a "error" = Some (JStr label) /\ label <> "")
  /\ is_Some (body_field a "details")
  /\ body_field a "success" = None
  /\ body_field a "retryAfter" = None.
Proof.
  cbv zeta. unfold errorMiddleware.
  destruct (eclass e), (ecode e) as [c |];
    try destruct (c =? "LIMIT_FILE_SIZE")%string;
    (split; [eexists; split; [reflexivity | discriminate] |];
     split; [eexists; reflexivity |]; split; reflexivity).
Qed.

(** X13.  Every answer of the route that is not a 200 carries a non-empty
    [error] label and a [details] field and no [success] field; a 200
    carries [success: true] and no [error]. *)
Theorem post_transcribe_answer_shape (env : Env) (r : HttpRequest) (w : World) :
  let a := snd (post_transcribe env r w) in
  (status a = 200 ->
     body_field a "success" = Some (JBool true) /\ body_field a "error" = None)
  /\ (status a <> 200 ->
      (exists label, body_field a "error" = Some (JStr label) /\ label <> "")
      /\ is_Some (body_field a "details")
      /\ body_field a "success" = None).
Proof.
  cbv zeta.
  destruct (post_transcribe_answers env r w)
    as [E | [(e & E) | [E | [(f & d & E) | (e & E)]]]]; rewrite E.
  - split; [discriminate |]; intros _;
      split; [eexists; split; [reflexivity | discriminate] |];
      split; [eexists; reflexivity | reflexivity].
  - destruct (errorMiddleware_shape e) as (H1 & H2 & H3 & _).
    split; [| intros _; auto].
    intros Hst. pose proof (errorMiddleware_status e) as Hin.
    rewrite Hst in Hin. cbn in Hin. intuition discriminate.
  - split; [discriminate |]; intros _;
      split; [eexists; split; [reflexivity | discriminate] |];
      split; [eexists; reflexivity | reflexivity].
  - split; [intros _; split; reflexivity |]. intros N. exfalso. apply N. reflexivity.
  - destruct (error_response_shape e) as (H1 & H2 & H3 & _).
    split; [| intros _; auto].
    intros Hst. pose proof (error_response_status e) as Hin.
    rewrite Hst in Hin. cbn in Hin. intuition discriminate.
Qed.

(** X14.  A [retryAfter] field appears on a 503 only, and then it is 20. *)
Theorem retry_after_only_with_503
    (env : Env) (r : HttpRequest) (w : World) (v : jsval) :
  body_field (snd (post_transcribe env r w)) "retryAfter" = Some v ->
  status (snd (post_transcribe env r w)) = 503 /\ v = JNum 20.
Proof.
  destruct (post_transcribe_answers env r w)
    as [E | [(e & E) | [E | [(f & d & E) | (e & E)]]]]; rewrite E;
    try discriminate.
  - destruct (errorMiddleware_shape e) as (_ & _ & _ & H). rewrite H. discriminate.
  - apply error_response_shape.
Qed.

(** X15.  What intake hands to the handler as [req.file] is a part of the
    body under ['audio'] with a file name, stored under the temporary path
    with the content of the part, of the size recorded, within the
    limit. *)
Theorem intake_stores_upload
    (env : Env) (ps : list Part) (w w' : World) (f : MulterFile) :
  multer_single env fileFilter "audio" ps w = (w', inl (Some f)) ->
  exists fname mime content,
    In (FilePart "audio" fname mime content) ps
    /\ fname <> ""
    /\ f = stored_file env fname mime content
    /\ path f = temp_path env
    /\ fs w' !! path f = Some content
    /\ size f = Z.of_nat (String.length content)
    /\ (size f <= fileSizeLimit)%Z.
Proof.
  intros Hm. pose proof (multer_single_outcomes env ps w) as H.
  rewrite Hm in H.
  destruct H as (fname & mime & content & Hin & Hne & Hl & -> & ->).
  exists fname, mime, content.
  split; [exact Hin |]. split; [exact Hne |].
  split; [reflexivity |]. split; [reflexivity |].
  split; [apply lookup_insert_eq |]. split; [reflexivity |].
  cbn [stored_file size]. lia.
Qed.

(** ** Witnesses on sample requests *)


Lemma transcribe_success_iff_witness :
  transcribe Case.ready Sample.memo_request Sample.uploaded
  = ({| fs := delete "/tmp/9f2c41" {[ "/tmp/9f2c41" := "RIFF" ]};
        pinned := ∅;
        outbound :=
          [ {| url := "https://api-inference.huggingface.co/models/openai/whisper-large-v3";
               data := "RIFF";
               authorization := "Bearer hf_token";
               content_type := "audio/wav";
               accept := "application/json";
               maxBodyLength := 104857600;
               timeout := 60000 |} ] |},
     {| status := 200;
        body := JObj
          [ ("success", JBool true);
            ("transcription", JObj [("text", JStr "hello world")]);
            ("metadata", JObj
               [ ("model", JStr "openai/whisper-large-v3");
                 ("originalFilename", JStr "memo.wav");
                 ("fileSize", JNum 4);
                 ("mimetype", JStr "audio/wav");
                 ("processedAt", JStr "2025-06-01T12:00:00.000Z") ]) ] |}).
Proof.
  destruct (transcribe_success_iff Case.ready Sample.memo_request Sample.uploaded)
    as [_ H].
  apply (H Sample.memo "RIFF" Sample.transcript);
    [reflexivity | reflexivity | reflexivity | reflexivity | apply not_elem_of_empty].
Defined.





Lemma no_token_no_call_witness :
  outbound (fst (post_transcribe Case.unconfigured Sample.memo_upload
                   Sample.empty_world)) = [].
Proof.
  apply (no_token_no_call Case.unconfigured Sample.memo_upload
           Sample.empty_world eq_refl).
Defined.

Lemma post_transcribe_restores_fs_witness :
  fs (fst (post_transcribe Case.ready Case.two_files Sample.empty_world)) = ∅.
Proof.
  apply (post_transcribe_restores_fs Case.ready Case.two_files Sample.empty_world
           eq_refl).
  - apply not_elem_of_empty.
  - reflexivity.
Defined.

Lemma retry_after_only_with_503_witness :
  status (snd (post_transcribe
                 (Sample.env_of (Some "hf_token") Sample.model_loading)
                 Sample.memo_upload Sample.empty_world)) = 503.
Proof.
  apply (retry_after_only_with_503
           (Sample.env_of (Some "hf_token") Sample.model_loading)
           Sample.memo_upload Sample.empty_world (JNum 20) eq_refl).
Defined.

Lemma intake_stores_upload_witness :
  exists fname mime content,
    In (FilePart "audio" fname mime content) (parts Sample.memo_upload)
    /\ fname <> ""
    /\ stored_file Case.ready "memo.wav" "audio/wav" "RIFF"
       = stored_file Case.ready fname mime content.
Proof.
  destruct (intake_stores_upload Case.ready (parts Sample.memo_upload)
              Sample.empty_world _ _ eq_refl)
    as (fname & mime & content & H1 & H2 & H3 & _).
  exists fname, mime, content. auto.
Defined.

(** ** The content type sent upstream *)

(** X16.  The content type sent upstream is never empty and never the
    placeholder ['application/octet-stream']: it is the declared type, or
    one of the five audio types of the table. *)
Theorem getAudioMimeType_never_generic (f : MulterFile) :
  getAudioMimeType f <> ""
  /\ getAudioMimeType f <> "application/octet-stream"
  /\ (getAudioMimeType f = mimetype f
      \/ In (getAudioMimeType f)
            ["audio/mpeg"; "audio/wav"; "audio/ogg"; "audio/mp4"; "audio/flac"]).
Proof.
  unfold getAudioMimeType.
  destruct (truthy (JStr (mimetype f))
            && negb (mimetype f =? "application/octet-stream")%string) eqn:E.
  - apply andb_prop in E as [E1 E2]. cbn [truthy] in E1.
    apply negb_true_iff in E1, E2.
    apply String.eqb_neq in E1, E2. auto.
  - cbv zeta. generalize (toLowerCase (extname (originalname f))). intros ext.
    destruct (ext =? ".mp3")%string;
      [split; [discriminate | split; [discriminate | right; cbn; tauto]] |].
    destruct (ext =? ".wav")%string;
      [split; [discriminate | split; [discriminate | right; cbn; tauto]] |].
    destruct (ext =? ".ogg")%string;
      [split; [discriminate | split; [discriminate | right; cbn; tauto]] |].
    destruct (ext =? ".m4a")%string;
      [split; [discriminate | split; [discriminate | right; cbn; tauto]] |].
    destruct (ext =? ".flac")%string;
      split; try discriminate; split; try discriminate; right; cbn; tauto.
Qed.

(** ** Model keys *)

Lemma object_prototype_get_cases (k : string) :
  object_prototype_get k = JUndefined
  \/ truthy (object_prototype_get k) = true.
Proof.
  unfold object_prototype_get.
  destruct (k =? "__proto__")%string; [right; reflexivity |].
  destruct (k =? "constructor")%string; [right; reflexivity |].
  destruct (existsb (String.eqb k) object_prototype_functions);
    [right; reflexivity | left; reflexivity].
Qed.

Lemma HF_MODELS_values (k : string) (v : jsval) :
  own_lookup HF_MODELS k = Some v ->
  v = JStr "openai/whisper-large-v3" \/ v = JStr "openai/whisper-large-v3-turbo".
Proof.
  unfold HF_MODELS. cbn [own_lookup].
  destruct ("whisper-large-turbo" =? k)%string; [intros [= <-]; auto |].
  destruct ("whisper-large" =? k)%string; [intros [= <-]; auto | discriminate].
Qed.

(** X17.  Model resolution never yields a falsy value, whatever the key; and
    for a key that [Object.prototype] does not define it yields one of the
    two identifiers of the mapping, so that the request goes to one of two
    addresses. *)
Theorem modelName_closed (q : option string) :
  truthy (modelName q) = true
  /\ ((forall k, q = Some k -> object_prototype_get k = JUndefined) ->
      (modelName q = JStr "openai/whisper-large-v3"
       \/ modelName q = JStr "openai/whisper-large-v3-turbo")
      /\ forall env f content,
           In (url (outbound_call env f q content))
              [ "https://api-inference.huggingface.co/models/openai/whisper-large-v3";
                "https://api-inference.huggingface.co/models/openai/whisper-large-v3-turbo" ]).
Proof.
  assert (Hcases : truthy (modelName q) = true
                   /\ ((forall k, q = Some k -> object_prototype_get k = JUndefined) ->
                       modelName q = JStr "openai/whisper-large-v3"
                       \/ modelName q = JStr "openai/whisper-large-v3-turbo")).
  { destruct q as [k |]; [| split; [reflexivity | intros _; left; reflexivity]].
    destruct (own_lookup HF_MODELS k) as [v |] eqn:Hown.
    - rewrite (modelName_own_key k v Hown).
      destruct (HF_MODELS_values k v Hown) as [-> | ->];
        (split; [reflexivity | intros _; auto]).
    - destruct (object_prototype_get_cases k) as [Hu | Ht].
      + rewrite (modelName_unknown_key k Hown Hu).
        split; [reflexivity | intros _; auto].
      + split.
        * unfold modelName, modelKey, or_else at 2. cbn [of_opt truthy].
          destruct (String.eqb_spec k "") as [-> | Hk]; [reflexivity |].
          cbn [negb to_string]. unfold get_prop at 1. rewrite Hown.
          unfold or_else. rewrite Ht. exact Ht.
        * intros Hq. rewrite (Hq k eq_refl) in Ht. discriminate Ht. }
  destruct Hcases as [H1 H2]. split; [exact H1 |].
  intros Hq. specialize (H2 Hq). split; [exact H2 |].
  intros env f content. unfold outbound_call. cbn [url].
  destruct H2 as [-> | ->]; cbn; tauto.
Qed.

Lemma modelName_closed_witness :
  modelName (Some "whisper-medium") = JStr "openai/whisper-large-v3"
  \/ modelName (Some "whisper-medium") = JStr "openai/whisper-large-v3-turbo".
Proof.
  destruct (modelName_closed (Some "whisper-medium")) as [_ H].
  apply H. intros k [= <-]. reflexivity.
Defined.

(** X18.  Every key that [GET /api/models] lists selects, as [model]
    parameter, the identifier listed with it, and that identifier is a
    non-empty string. *)
Theorem listed_models_resolve (m : ModelInfo) :
  In m listModels ->
  modelName (Some (key m)) = name m
  /\ exists id, name m = JStr id /\ id <> "".
Proof.
  intros Hin.
  assert (Hown : own_lookup HF_MODELS (key m) = Some (name m)).
  { unfold listModels in Hin. apply in_map_iff in Hin as (k & <- & Hk).
    cbn [key name]. unfold get_prop.
    apply list_elem_of_In, own_keys_complete in Hk as [v Hv].
    rewrite Hv. reflexivity. }
  split; [apply modelName_own_key; exact Hown |].
  destruct (HF_MODELS_values _ _ Hown) as [-> | ->];
    eexists; split; try reflexivity; discriminate.
Qed.

Lemma listed_models_resolve_witness :
  modelName (Some "whisper-large-turbo") = JStr "openai/whisper-large-v3-turbo".
Proof.
  apply (listed_models_resolve
           {| key := "whisper-large-turbo";
              name := JStr "openai/whisper-large-v3-turbo";
              description :=
                JStr "Best accuracy, faster and cheaper (newest, 1.5GB)" |}).
  right. left. reflexivity.
Defined.

(** ** Allowed origins *)

Lemma split_comma_nonempty (s : string) : split_comma s <> [].
Proof.
  destruct s as [| c s]; [discriminate |]. cbn [split_comma].
  destruct (code c =? 44)%Z; [discriminate |].
  destruct (split_comma s); discriminate.
Qed.

Lemma concat_comma_cons (x : string) (y : string) (ys : list string) :
  String.concat "," (x :: y :: ys)
  = (x ++ "," ++ String.concat "," (y :: ys))%string.
Proof. reflexivity. Qed.

Lemma concat_comma_push (c : ascii) (x : string) (xs : list string) :
  String.concat "," (String c x :: xs) = String c (String.concat "," (x :: xs)).
Proof. destruct xs as [| y ys]; reflexivity. Qed.

(** X19.  When [ALLOWED_ORIGINS] is set, the allowed origins are its pieces
    between commas: joined by commas they give the variable back, there is
    at least one, and none holds a comma.  The list of the source is used
    only when the variable is not set: an empty variable allows the one
    origin [''] and nothing else. *)
Theorem allowedOrigins_of_variable (s : string) :
  String.concat "," (allowedOrigins (Some s)) = s
  /\ allowedOrigins (Some s) <> []
  /\ Forall (fun o => forallb (fun c => negb (code c =? 44)%Z)
                              (list_ascii_of_string o) = true)
            (allowedOrigins (Some s))
  /\ (s = "" -> allowedOrigins (Some s) = [""])
  /\ allowedOrigins None = default_origins.
Proof.
  cbn [allowedOrigins].
  split; [| split; [apply split_comma_nonempty | split; [| split; [intros ->; reflexivity | reflexivity]]]].
  - induction s as [| c s IH]; [reflexivity |]. cbn [split_comma].
    pose proof (split_comma_nonempty s) as Hne.
    destruct (split_comma s) as [| piece others]; [congruence |].
    destruct (code c =? 44)%Z eqn:Hc.
    + rewrite concat_comma_cons, IH.
      assert (c = ","%char) as ->.
      { apply Z.eqb_eq in Hc. unfold code in Hc.
        rewrite <- (ascii_N_embedding c).
        replace (N_of_ascii c) with 44%N by lia. reflexivity. }
      reflexivity.
    + rewrite concat_comma_push, IH. reflexivity.
  - induction s as [| c s IH]; [repeat constructor |]. cbn [split_comma].
    pose proof (split_comma_nonempty s) as Hne.
    destruct (split_comma s) as [| piece others]; [congruence |].
    inversion IH as [| ? ? Hpiece Hothers]; subst.
    destruct (code c =? 44)%Z eqn:Hc.
    + constructor; [reflexivity | constructor; assumption].
    + constructor; [| assumption].
      cbn [list_ascii_of_string forallb]. rewrite Hc, Hpiece. reflexivity.
Qed.

(** ** The two readings of a file name's extension *)

Lemma plain_unit_lower (c : ascii) : plain_unit (lower_unit c) = plain_unit c.
Proof. destruct c as [[] [] [] [] [] [] [] []]; reflexivity. Qed.

Lemma fold_unit_lower (c : ascii) :
  (code (lower_unit c) <? 128)%Z = true -> fold_unit (lower_unit c) = fold_unit c.
Proof. destruct c as [[] [] [] [] [] [] [] []]; intros H; try reflexivity; discriminate H. Qed.

Lemma plain_toLowerCase (e : string) : plain (toLowerCase e) = plain e.
Proof.
  unfold plain. induction e as [| c e IH]; [reflexivity |].
  cbn [toLowerCase list_ascii_of_string forallb].
  rewrite plain_unit_lower, IH. reflexivity.
Qed.

Lemma fold_case_toLowerCase (e : string) :
  forallb (fun c => (code c <? 128)%Z) (list_ascii_of_string (toLowerCase e)) = true ->
  fold_case (toLowerCase e) = fold_case e.
Proof.
  induction e as [| c e IH]; [reflexivity |].
  cbn [toLowerCase list_ascii_of_string forallb fold_case].
  intros H. apply andb_prop in H as [Hc He].
  rewrite fold_unit_lower by exact Hc. rewrite IH by exact He. reflexivity.
Qed.

(** X20.  On a name that ends in [.mp3], [.wav], [.ogg] or [.m4a], in any
    letter case, after a character that is not a slash, the two readings
    of the extension agree: the filter's test on the end of the name
    accepts the file, and [getAudioMimeType], for a generic declared type,
    gives the media type of that extension. *)
Theorem audio_extension_agreement
    (f : MulterFile) (pre : string) (c : ascii) (e x : string) :
  originalname f = (pre ++ String c ("." ++ e))%string ->
  (code c =? CHAR_FORWARD_SLASH)%Z = false ->
  toLowerCase e = x ->
  In x ["mp3"; "wav"; "ogg"; "m4a"] ->
  matches_audio_extension (originalname f) = true
  /\ fileFilter f = Accept
  /\ (mimetype f = "" \/ mimetype f = "application/octet-stream" ->
      In (x, getAudioMimeType f)
         [ ("mp3", "audio/mpeg"); ("wav", "audio/wav");
           ("ogg", "audio/ogg"); ("m4a", "audio/mp4") ]).
Proof.
  intros Hname Hc Hlow Hx.
  assert (Hfacts : plain e = true /\ e <> ""
                   /\ fold_case e = fold_case x /\ In x audio_extensions).
  { rewrite <- plain_toLowerCase, Hlow.
    assert (Hne : e <> "") by (intros ->; cbn in Hlow; subst x; cbn in Hx; intuition discriminate).
    assert (Hfold : fold_case x = fold_case e).
    { rewrite <- Hlow. apply fold_case_toLowerCase. rewrite Hlow.
      cbn in Hx. destruct Hx as [<- | [<- | [<- | [<- | []]]]]; reflexivity. }
    cbn in Hx. destruct Hx as [<- | [<- | [<- | [<- | []]]]];
      (split; [reflexivity |]; split; [exact Hne |];
       split; [symmetry; exact Hfold | cbn; tauto]). }
  destruct Hfacts as (Hplain & Hne & Hfold & Hext).
  assert (Hmatch : matches_audio_extension (originalname f) = true).
  { apply matches_audio_extension_iff.
    exists (pre ++ String c "")%string, ("." ++ e)%string, x.
    split; [rewrite Hname, string_app_assoc; reflexivity |].
    split; [exact Hext |].
    change (String (fold_unit ".") (fold_case e) = String (fold_unit ".") (fold_case x)).
    rewrite Hfold. reflexivity. }
  split; [exact Hmatch |].
  split; [apply fileFilter_accept_iff; right; right; exact Hmatch |].
  intros Hgen.
  assert (Htype : getAudioMimeType f = type_of_extension ("." ++ x)).
  { rewrite (getAudioMimeType_generic f Hgen), Hname.
    rewrite (extname_dotted pre c e Hc Hplain Hne).
    change (toLowerCase ("." ++ e)) with (String "."%char (toLowerCase e)).
    rewrite Hlow. reflexivity. }
  rewrite Htype. cbn in Hx. destruct Hx as [<- | [<- | [<- | [<- | []]]]].
  - left. reflexivity.
  - right. left. reflexivity.
  - right. right. left. reflexivity.
  - right. right. right. left. reflexivity.
Qed.

Lemma audio_extension_agreement_witness :
  fileFilter {| fieldname := "document"; originalname := "Lecture 4.Mp3";
                mimetype := ""; size := 0; path := "" |} = Accept.
Proof.
  apply (audio_extension_agreement
           {| fieldname := "document"; originalname := "Lecture 4.Mp3";
              mimetype := ""; size := 0; path := "" |}
           "Lecture " "4"%char "Mp3" "mp3" eq_refl eq_refl eq_refl).
  left. reflexivity.
Defined.
